(** * Currency converter (components/Bai2.tsx): API service and session handlers

    A shallow embedding of [CurrencyApiService] and of the event handlers of
    the [CurrencyConverter] component, with the properties of the conversion
    workflow stated over it.

    - JavaScript numbers are IEEE 754 binary64 values, modelled by the
      Standard Library's [spec_float] at precision 53 and [emax] 1024.
    - [async] functions are computations over the HTTP transport: a small
      monad threads the transport and the log of requests sent, and carries
      thrown exceptions.
    - The component is a state machine over its [useState] cells; a promise
      awaiting the transport is an entry of the state's in-flight list. *)

From Stdlib Require Import ZArith List Ascii String Bool Lia.
From Stdlib Require Import QArith Qabs Qpower Lqa.
From Stdlib Require Import Floats.SpecFloat.
Import ListNotations.

Local Open Scope string_scope.
Local Open Scope Z_scope.

(** ** JavaScript numbers *)

Module Num.

Definition prec : Z := 53.
Definition emax : Z := 1024.

Definition number : Type := spec_float.

(** The values a JavaScript number can hold: canonical binary64 data. *)
Definition valid (x : number) : Prop := valid_binary prec emax x = true.

Definition is_finite (x : number) : bool :=
  match x with
  | S754_zero _ | S754_finite _ _ _ => true
  | _ => false
  end.

(** [x * y] *)
Definition mul (x y : number) : number := SFmul prec emax x y.

(** [x <= y] *)
Definition leb (x y : number) : bool := SFleb x y.

(** ToBoolean on a number: [0], [-0] and [NaN] are falsy. *)
Definition truthy (x : number) : bool :=
  match x with
  | S754_zero _ | S754_nan => false
  | _ => true
  end.

(** The string a [toFixed] call returns, kept structured: either the sign and
    the decimal digits of an integer [n] with the point [f] places from the
    right, or the output of Number::toString, which [toFixed] falls back to
    for [NaN], the infinities and magnitudes from [10^21] on. *)
Inductive fixed_string : Type :=
| Digits (neg : bool) (n : Z) (f : Z)
| Shortest (x : number).

(** The magnitude of a finite non-zero number times [10^f], as a fraction. *)
Definition scaled_num (m : positive) (e f : Z) : Z :=
  Zpos m * 10 ^ f * 2 ^ Z.max e 0.
Definition scaled_den (e : Z) : Z := 2 ^ Z.max (- e) 0.

(** The integer [n] for which [n - num/den] is closest to zero, the larger
    one when there are two. *)
Definition nearest_tie_up (num den : Z) : Z := (2 * num + den) / (2 * den).

(** Number.prototype.toFixed(f), for [0 <= f <= 100]. *)
Definition toFixed (x : number) (f : Z) : fixed_string :=
  match x with
  | S754_nan | S754_infinity _ => Shortest x
  | S754_zero _ => Digits false 0 f
  | S754_finite s m e =>
      if 10 ^ 21 * scaled_den e <=? scaled_num m e 0
      then Shortest x
      else Digits s (nearest_tie_up (scaled_num m e f) (scaled_den e)) f
  end.

(** The binary64 value nearest to [n / d], ties to even. *)
Definition of_ratio (neg : bool) (n d : positive) : number :=
  let '(q, e, l) := SFdiv_core_binary prec emax (Zpos n) 0 (Zpos d) 0 in
  binary_round_aux prec emax neg q e l.

(** [Number(s)] on the output of [toFixed]: the decimal is rounded to the
    nearest binary64 value; Number::toString output reads back as the number
    it was printed from. *)
Definition Number (s : fixed_string) : number :=
  match s with
  | Shortest x => x
  | Digits neg n f =>
      match n with
      | Zpos p => of_ratio neg p (Z.to_pos (10 ^ f))
      | _ => S754_zero neg
      end
  end.

(** Decimal literals [n / 10^f]. *)
Definition lit (n f : Z) : number := Number (Digits false n f).

Definition zero : number := S754_zero false.
Definition one : number := S754_finite false 4503599627370496 (-52).

(** The magnitude of a number as a rational ([0] when it is not finite), and
    the rational a digit string [n] with [f] decimals denotes. *)
Definition abs_Q (x : number) : Q :=
  match x with
  | S754_finite _ m e => scaled_num m e 0 # Z.to_pos (scaled_den e)
  | _ => 0
  end.

Definition decimal_Q (n f : Z) : Q := n # Z.to_pos (10 ^ f).

End Num.

Import Num.

(** ** Exceptions and the HTTP transport *)

(** Thrown values: an [Error] with its message ([new Error(message)], or a
    built-in error such as a TypeError), an error that [axios.isAxiosError]
    recognises (it is an [Error] too), and anything else. *)
Inductive exn : Type :=
| Error (message : string)
| AxiosError (message : string)
| Thrown.

Definition isAxiosError (e : exn) : bool :=
  match e with AxiosError _ => true | _ => false end.

(** [err instanceof Error ? err.message : fallback] *)
Definition message_or (fallback : string) (e : exn) : string :=
  match e with
  | Error m | AxiosError m => m
  | Thrown => fallback
  end.

(** [Record<string, number>] as the parsed JSON object: its own properties,
    in the order the body lists them. *)
Definition Rates : Type := list (string * number).

(** The own property [key] of a rates object, [None] when it has none. *)
Fixpoint rates_get (key : string) (rates : Rates) : option number :=
  match rates with
  | [] => None
  | (k, v) :: rest => if String.eqb key k then Some v else rates_get key rest
  end.

(** The names every object inherits from [Object.prototype]. *)
Definition Object_prototype_names : list string :=
  ["constructor"; "__defineGetter__"; "__defineSetter__"; "hasOwnProperty";
   "__lookupGetter__"; "__lookupSetter__"; "isPrototypeOf";
   "propertyIsEnumerable"; "toString"; "valueOf"; "__proto__";
   "toLocaleString"].

Definition inherited (key : string) : bool :=
  existsb (String.eqb key) Object_prototype_names.

(** What reading a property of a rates object gives: the number of an own
    property; a member of [Object.prototype] (a function, and for
    ["__proto__"] the prototype object itself), which is truthy and is no
    number; or [undefined]. *)
Inductive property : Type :=
| Own (v : number)
| Inherited
| Undefined.

(** [rates[key]]: an own property shadows an inherited one. *)
Definition rates_read (key : string) (rates : Rates) : property :=
  match rates_get key rates with
  | Some v => Own v
  | None => if inherited key then Inherited else Undefined
  end.

(** The array index a property name denotes, if it denotes one: the name is
    the canonical decimal numeral of an integer below [2^32 - 1]. *)
Definition digit_value (c : Ascii.ascii) : option N :=
  let n := Ascii.N_of_ascii c in
  if ((48 <=? n) && (n <=? 57))%N then Some (n - 48)%N else None.

Fixpoint numeral (s : string) (acc : N) : option N :=
  match s with
  | EmptyString => Some acc
  | String c rest =>
      match digit_value c with
      | Some d => numeral rest (10 * acc + d)%N
      | None => None
      end
  end.

Definition array_index (key : string) : option N :=
  match key with
  | EmptyString => None
  | String c rest =>
      if Ascii.eqb c "0"%char && negb (String.eqb rest "")
      then None
      else
        match numeral key 0 with
        | Some n => if (n <? 2 ^ 32 - 1)%N then Some n else None
        | None => None
        end
  end.

Fixpoint insert_index (i : N) (key : string) (l : list (N * string))
  : list (N * string) :=
  match l with
  | [] => [(i, key)]
  | (j, k) :: rest =>
      if (i <? j)%N then (i, key) :: l else (j, k) :: insert_index i key rest
  end.

Fixpoint index_keys (names : list string) : list (N * string) :=
  match names with
  | [] => []
  | key :: rest =>
      match array_index key with
      | Some i => insert_index i key (index_keys rest)
      | None => index_keys rest
      end
  end.

Definition is_index (key : string) : bool :=
  match array_index key with Some _ => true | None => false end.

(** [Object.keys(rates)]: the names that are array indices first, in
    ascending numeric order, then the other names in the order the
    properties were created. *)
Definition Object_keys (rates : Rates) : list string :=
  let names := map fst rates in
  (map snd (index_keys names)
   ++ filter (fun key => negb (is_index key)) names)%list.

(** A field of a parsed body as a truthiness test sees it: missing
    ([undefined]), there but falsy ([null], [0], [""], [false]), or holding
    a value. *)
Inductive field (A : Type) : Type :=
| Missing
| Falsy
| Holding (a : A).
Arguments Missing {A}.
Arguments Falsy {A}.
Arguments Holding {A} a.

(** [interface CurrencyData], the body of the upstream response.  A field the
    body lacks is [None]; a [rates] field that holds a value holds an object
    of numbers, as the interface declares; [other_fields] holds what the body
    carries beyond the interface (the provider's [result] and [error-type]
    fields). *)
Record CurrencyData : Type := mkCurrencyData {
  cd_base : option string;
  cd_rates_field : field Rates;
  cd_timestamp : option Z;
  cd_date : option string;
  cd_other_fields : list (string * string)
}.

(** [response.data.rates] when it is truthy, [None] when it is missing or
    falsy. *)
Definition cd_rates (d : CurrencyData) : option Rates :=
  match cd_rates_field d with
  | Holding r => Some r
  | Missing | Falsy => None
  end.

(** [interface ExchangeRates] *)
Record ExchangeRates : Type := mkExchangeRates {
  rates : Rates;
  base : option string;
  date : option string
}.

(** What [await axios.get(url)] gives: a response, whose [data] may be
    missing, or a thrown error. *)
Inductive outcome : Type :=
| Response (data : option CurrencyData)
| Failure (e : exn).

(** The transport at the time of a call: what each URL answers. *)
Definition transport : Type := string -> outcome.

(** ** Computations of [async] functions *)

Inductive completion (A : Type) : Type :=
| Return (a : A)
| Throw (e : exn).
Arguments Return {A} a.
Arguments Throw {A} e.

(** A computation reads the transport and extends the log of requests. *)
Definition IO (A : Type) : Type :=
  transport -> list string -> completion A * list string.

Definition ret {A} (a : A) : IO A := fun _ log => (Return a, log).

Definition throw {A} (e : exn) : IO A := fun _ log => (Throw e, log).

Definition bind {A B} (c : IO A) (k : A -> IO B) : IO B :=
  fun w log =>
    match c w log with
    | (Return a, log') => k a w log'
    | (Throw e, log') => (Throw e, log')
    end.

(** [try { c } catch (error) { handler }] *)
Definition try_catch {A} (c : IO A) (handler : exn -> IO A) : IO A :=
  fun w log =>
    match c w log with
    | (Return a, log') => (Return a, log')
    | (Throw e, log') => handler e w log'
    end.

(** [await axios.get(url)]: one request, logged. *)
Definition axios_get (url : string) : IO (option CurrencyData) :=
  fun w log =>
    match w url with
    | Response data => (Return data, (log ++ [url])%list)
    | Failure e => (Throw e, (log ++ [url])%list)
    end.

Notation "x <- c ;; k" := (bind c (fun x => k))
  (at level 61, c at next level, right associativity).

(** ** CurrencyApiService *)

Module CurrencyApiService.

Definition endpoint (baseCurrency : string) : string :=
  "https://open.er-api.com/v6/latest/" ++ baseCurrency.

Definition getExchangeRates (baseCurrency : string) : IO ExchangeRates :=
  try_catch
    (data <- axios_get (endpoint baseCurrency) ;;
     match data with
     | Some d =>
         match cd_rates d with
         | Some r => ret (mkExchangeRates r (cd_base d) (cd_date d))
         | None => throw (Error "Invalid response format")
         end
     | None => throw (Error "Invalid response format")
     end)
    (fun error =>
       if isAxiosError error
       then throw (Error ("Failed to fetch exchange rates: "
                            ++ message_or "" error))
       else throw (Error "Failed to fetch exchange rates")).

(** The object [convertCurrency] resolves with. *)
Record Converted : Type := mkConverted {
  res_convertedAmount : number;
  res_rate : number
}.

(** The message of the TypeError thrown when [rate.toFixed(6)] is called on
    a value that has no [toFixed] method (the text is the V8 engine's). *)
Definition toFixed_is_not_a_function : string :=
  "rate.toFixed is not a function".

(** With an inherited [rate] the guard passes (functions and objects are
    truthy), [amount * rate] is [NaN] and [NaN.toFixed(4)] is fine, and the
    call [rate.toFixed(6)] throws. *)
Definition convertCurrency (fromCurrency toCurrency : string) (amount : number)
  : IO Converted :=
  exchangeRates <- getExchangeRates fromCurrency ;;
  match rates_read toCurrency (rates exchangeRates) with
  | Undefined =>
      throw (Error ("Exchange rate not available for " ++ toCurrency))
  | Own rate =>
      if negb (truthy rate)
      then throw (Error ("Exchange rate not available for " ++ toCurrency))
      else
        let convertedAmount := mul amount rate in
        ret (mkConverted (Number (toFixed convertedAmount 4))
                         (Number (toFixed rate 6)))
  | Inherited => throw (Error toFixed_is_not_a_function)
  end.

End CurrencyApiService.

(** ** The CurrencyConverter component *)

Module Session.

Import CurrencyApiService.

(** [interface CurrencyConversion]; the optional fields are [None] while
    [undefined]. *)
Record CurrencyConversion : Type := mkConversion {
  fromCurrency : string;
  toCurrency : string;
  amount : number;
  convertedAmount : option number;
  rate : option number
}.

(** An [async] handler suspended at its [await]: the request is out, the rest
    of the handler runs when the transport answers. *)
Inductive task : Type :=
| FetchCurrencies (baseCurrency : string)
| Convert (fromCurrency toCurrency : string) (amount : number).

(** The four [useState] cells, and the promises awaiting the transport.  Each
    promise is named by the number of requests issued before it. *)
Record State : Type := mkState {
  conversion : CurrencyConversion;
  currencies : list string;
  loading : bool;
  error : string;
  inflight : list (nat * task);
  issued : nat
}.

Definition setConversion (f : CurrencyConversion -> CurrencyConversion)
  (st : State) : State :=
  mkState (f (conversion st)) (currencies st) (loading st) (error st)
          (inflight st) (issued st).

Definition setCurrencies (l : list string) (st : State) : State :=
  mkState (conversion st) l (loading st) (error st) (inflight st) (issued st).

Definition setLoading (b : bool) (st : State) : State :=
  mkState (conversion st) (currencies st) b (error st) (inflight st) (issued st).

Definition setError (msg : string) (st : State) : State :=
  mkState (conversion st) (currencies st) (loading st) msg
          (inflight st) (issued st).

(** The request of [t] goes out and its promise is recorded. *)
Definition spawn (t : task) (st : State) : State :=
  mkState (conversion st) (currencies st) (loading st) (error st)
          ((inflight st ++ [(issued st, t)])%list) (S (issued st)).

(** The URL a suspended handler has requested. *)
Definition requested (t : task) : string :=
  match t with
  | FetchCurrencies baseCurrency => endpoint baseCurrency
  | Convert fromCurrency _ _ => endpoint fromCurrency
  end.

Fixpoint lookup_task (id : nat) (l : list (nat * task)) : option task :=
  match l with
  | [] => None
  | (i, t) :: rest => if Nat.eqb id i then Some t else lookup_task id rest
  end.

Fixpoint remove_task (id : nat) (l : list (nat * task)) : list (nat * task) :=
  match l with
  | [] => []
  | (i, t) :: rest =>
      if Nat.eqb id i then rest else (i, t) :: remove_task id rest
  end.

Definition settled (id : nat) (st : State) : State :=
  mkState (conversion st) (currencies st) (loading st) (error st)
          (remove_task id (inflight st)) (issued st).

(** The completion of an [async] service call whose request the transport
    answers with [o]. *)
Definition answered {A} (c : IO A) (o : outcome) : completion A :=
  fst (c (fun _ => o) []).

(** [fetchCurrencies], up to its [await]. *)
Definition fetchCurrencies (baseCurrency : string) (st : State) : State :=
  spawn (FetchCurrencies baseCurrency) (setError "" (setLoading true st)).

(** [fetchCurrencies], from its [await] on. *)
Definition fetchCurrencies_resume (baseCurrency : string) (o : outcome)
  (st : State) : State :=
  setLoading false
    match answered (getExchangeRates baseCurrency) o with
    | Return exchangeRates =>
        setCurrencies (Object_keys (rates exchangeRates)) st
    | Throw err => setError (message_or "Failed to fetch currencies" err) st
    end.

(** [handleConvert], up to its [await]. *)
Definition handleConvert (st : State) : State :=
  let c := conversion st in
  if negb (truthy (amount c)) || leb (amount c) zero
  then setError "Please enter a valid amount" st
  else spawn (Convert (fromCurrency c) (toCurrency c) (amount c))
             (setError "" (setLoading true st)).

(** [handleConvert], from its [await] on. *)
Definition handleConvert_resume (from to : string) (a : number) (o : outcome)
  (st : State) : State :=
  setLoading false
    match answered (convertCurrency from to a) o with
    | Return result =>
        setConversion
          (fun prev =>
             mkConversion (fromCurrency prev) (toCurrency prev) (amount prev)
                          (Some (res_convertedAmount result))
                          (Some (res_rate result)))
          st
    | Throw err => setError (message_or "Conversion failed" err) st
    end.

Definition resume (t : task) (o : outcome) (st : State) : State :=
  match t with
  | FetchCurrencies baseCurrency => fetchCurrencies_resume baseCurrency o st
  | Convert from to a => handleConvert_resume from to a o st
  end.

Definition handleFromCurrencyChange (value : string) (st : State) : State :=
  fetchCurrencies value
    (setConversion
       (fun prev =>
          mkConversion value (toCurrency prev) (amount prev)
                       (convertedAmount prev) (rate prev))
       st).

Definition handleToCurrencyChange (value : string) (st : State) : State :=
  setConversion
    (fun prev =>
       mkConversion (fromCurrency prev) value (amount prev)
                    (convertedAmount prev) (rate prev))
    st.

(** [parsed] is what [parseFloat(e.target.value)] returned. *)
Definition handleAmountChange (parsed : number) (st : State) : State :=
  let amount := if truthy parsed then parsed else zero in
  setConversion
    (fun prev =>
       mkConversion (fromCurrency prev) (toCurrency prev) amount
                    (convertedAmount prev) (rate prev))
    st.

(** [fetchCurrencies] is called on [conversion.toCurrency] of the render the
    click happened in. *)
Definition swapCurrencies (st : State) : State :=
  fetchCurrencies (toCurrency (conversion st))
    (setConversion
       (fun prev =>
          mkConversion (toCurrency prev) (fromCurrency prev) (amount prev)
                       (convertedAmount prev) (rate prev))
       st).

Inductive event : Type :=
| ChangeFrom (value : string)
| ChangeTo (value : string)
| ChangeAmount (parsed : number)
| ClickSwap
| ClickConvert
| Settle (id : nat) (o : outcome).

Definition step (st : State) (ev : event) : State :=
  match ev with
  | ChangeFrom value => handleFromCurrencyChange value st
  | ChangeTo value => handleToCurrencyChange value st
  | ChangeAmount parsed => handleAmountChange parsed st
  | ClickSwap => swapCurrencies st
  | ClickConvert => handleConvert st
  | Settle id o =>
      match lookup_task id (inflight st) with
      | Some t => resume t o (settled id st)
      | None => st
      end
  end.

Definition run (st : State) (evs : list event) : State := fold_left step evs st.

(** The [useState] defaults. *)
Definition initial : State :=
  mkState (mkConversion "USD" "EUR" (lit 1 0) None None) [] false "" [] 0.

(** After the mount effect [fetchCurrencies('USD')] has run once, as it does
    in a production build. *)
Definition mounted : State := fetchCurrencies "USD" initial.

(** After the mount effect has run twice: the application is rendered under
    [React.StrictMode], under which a development build runs every mount
    effect a second time. *)
Definition mounted_twice : State := fetchCurrencies "USD" mounted.

Definition is_option (value : string) (st : State) : bool :=
  existsb (String.eqb value) (currencies st).

(** What the rendered page lets happen: both selects and both buttons carry
    [disabled={loading}], a select fires with one of its options, the amount
    input is always live, and the transport answers only requests that are
    out. *)
Definition enabled (st : State) (ev : event) : bool :=
  match ev with
  | ChangeFrom value | ChangeTo value => negb (loading st) && is_option value st
  | ChangeAmount _ => true
  | ClickSwap | ClickConvert => negb (loading st)
  | Settle id _ =>
      match lookup_task id (inflight st) with Some _ => true | None => false end
  end.

(** Every event of the sequence is one the page lets happen when its turn
    comes. *)
Fixpoint enabled_run (st : State) (evs : list event) : bool :=
  match evs with
  | [] => true
  | ev :: rest => enabled st ev && enabled_run (step st ev) rest
  end.

(** The states the page can be in, in either build. *)
Inductive reachable : State -> Prop :=
| reach_mounted : reachable mounted
| reach_mounted_twice : reachable mounted_twice
| reach_step st ev :
    reachable st -> enabled st ev = true -> reachable (step st ev).

(** The states the page can be in when the mount effect has run once. *)
Inductive reachable_once : State -> Prop :=
| once_mounted : reachable_once mounted
| once_step st ev :
    reachable_once st -> enabled st ev = true -> reachable_once (step st ev).

End Session.

(** ** Scenario data *)

Module Scenario.

Import CurrencyApiService Session.

(** The transport answering every request with [o]. *)
Definition always (o : outcome) : transport := fun _ => o.

(** [w] answers the request for [baseCurrency] with a body whose [rates]
    field is [table]. *)
Definition serves (w : transport) (baseCurrency : string) (table : Rates)
  : Prop :=
  exists d,
    w (endpoint baseCurrency) = Response (Some d) /\ cd_rates d = Some table.

Definition body (baseCurrency : string) (table : Rates) : CurrencyData :=
  mkCurrencyData (Some baseCurrency) (Holding table) None None [].

(** [{base: "USD", rates: {"USD": 1, "EUR": 0.9}}] *)
Definition usd_table : Rates := [("USD", lit 1 0); ("EUR", lit 9 1)].
Definition usd_response : outcome := Response (Some (body "USD" usd_table)).

(** The same provider a moment later, quoting EUR at 0.8. *)
Definition usd_table_later : Rates := [("USD", lit 1 0); ("EUR", lit 8 1)].
Definition usd_response_later : outcome :=
  Response (Some (body "USD" usd_table_later)).

Definition eur_table : Rates := [("EUR", lit 1 0); ("USD", lit 11 1)].
Definition eur_response : outcome := Response (Some (body "EUR" eur_table)).

(** The provider's answer for base EUR, quoting GBP as well. *)
Definition eur_gbp_table : Rates :=
  [("EUR", lit 1 0); ("USD", lit 11 1); ("GBP", lit 86 2)].
Definition eur_gbp_response : outcome :=
  Response (Some (body "EUR" eur_gbp_table)).

Definition gbp_table : Rates := [("GBP", lit 1 0); ("USD", lit 13 1)].
Definition gbp_response : outcome := Response (Some (body "GBP" gbp_table)).

(** A body with no [rates] field, and the provider's report of a base code
    it does not know. *)
Definition empty_body : CurrencyData :=
  mkCurrencyData None Missing None None [].
Definition unsupported_code_body : CurrencyData :=
  mkCurrencyData None Missing None None
    [("result", "error"); ("error-type", "unsupported-code")].

(** A body whose [rates] field is there and is [null]. *)
Definition null_rates_body : CurrencyData :=
  mkCurrencyData (Some "USD") Falsy None None [].

(** The binary64 numbers 10, 9, 0.9 and 0.8, bit by bit. *)
Definition ten : number := S754_finite false 5629499534213120 (-49).
Definition nine : number := S754_finite false 5066549580791808 (-49).
Definition nine_tenths : number := S754_finite false 8106479329266893 (-53).
Definition eight_tenths : number := S754_finite false 7205759403792794 (-53).

(** [{"USD": 1, "EUR": 0.9}], bit by bit. *)
Definition usd_table_bits : Rates := [("USD", one); ("EUR", nine_tenths)].

(** The page once the mount fetch has come back. *)
Definition ready : State := step mounted (Settle 0 usd_response).

(** The page showing the result of converting 10 USD to EUR. *)
Definition showing_result : State :=
  run ready [ChangeAmount (lit 10 0); ClickConvert; Settle 1 usd_response].

(** Events through which a handler sends a request. *)
Definition issues_request (ev : event) : bool :=
  match ev with
  | ChangeFrom _ | ClickSwap | ClickConvert => true
  | _ => false
  end.

(** At most one promise awaits the transport, and [loading] says whether one
    does. *)
Definition single_flight (st : State) : Prop :=
  (inflight st = [] /\ loading st = false)
  \/ (exists id t, inflight st = [(id, t)] /\ loading st = true).

End Scenario.

(** ** Exact values and positions *)

Module Exact.

(** The value of a finite number as a rational ([0] when it is not
    finite). *)
Definition value_Q (x : number) : Q :=
  match x with
  | S754_finite true _ _ => - abs_Q x
  | _ => abs_Q x
  end.

(** Where a position [y], counted in units of the last place, lies with
    respect to the mantissa of a shift record: on it, below its half-way
    point, on the half-way point, or above it. *)
Definition located (y : Q) (mrs : shr_record) : Prop :=
  let m := inject_Z (shr_m mrs) in
  match shr_r mrs, shr_s mrs with
  | false, false => (y == m)%Q
  | false, true => (m < y /\ y < m + (1 # 2))%Q
  | true, false => (y == m + (1 # 2))%Q
  | true, true => (m + (1 # 2) < y /\ y < m + 1)%Q
  end.

End Exact.

(** ** What the page renders, and what its handlers keep *)

Module View.

Import Session.

(** The result panel is rendered under
    [conversion.convertedAmount !== undefined && conversion.rate !== undefined]. *)
Definition result_shown (st : State) : bool :=
  match convertedAmount (conversion st), rate (conversion st) with
  | Some _, Some _ => true
  | _, _ => false
  end.

(** The amount cell holds a number the input can have produced through
    [parseFloat(...) || 0]: never [NaN], never [-0]. *)
Definition amount_settled (c : CurrencyConversion) : Prop :=
  amount c = zero \/ truthy (amount c) = true.

(** A suspended handler was started for the selection the page still shows;
    a conversion was started with an amount that passed the guard. *)
Definition task_matches (c : CurrencyConversion) (t : task) : Prop :=
  match t with
  | FetchCurrencies baseCurrency => baseCurrency = fromCurrency c
  | Convert from to a =>
      from = fromCurrency c /\ to = toCurrency c
      /\ truthy a = true /\ leb a zero = false
  end.

(** The in-flight handlers were started for the selection shown. *)
Definition flight_matches (st : State) : Prop :=
  forall id t,
    lookup_task id (inflight st) = Some t -> task_matches (conversion st) t.

(** A conversion was started with an amount that passed the guard. *)
Definition amount_passes (t : task) : Prop :=
  match t with
  | FetchCurrencies _ => True
  | Convert _ _ a => truthy a = true /\ leb a zero = false
  end.

Definition amounts_pass (st : State) : Prop :=
  Forall (fun entry => amount_passes (snd entry)) (inflight st).

(** What the [loading] flag keeps in either build: at most two requests in
    flight, at most one while the controls are live, and one at least while
    [loading] is set. *)
Definition bounded_overlap (st : State) : Prop :=
  (List.length (inflight st) <= 2)%nat
  /\ (loading st = false -> (List.length (inflight st) <= 1)%nat)
  /\ (loading st = true -> inflight st <> []).

End View.

(** ** MovieApiService *)

Module Movies.

(** [interface Movie] *)
Record Movie : Type := mkMovie {
  mv_imdbID : string;
  mv_Title : string;
  mv_Year : string;
  mv_Type : string;
  mv_Poster : string
}.

(** [interface MovieSearchResponse], as a parsed body: a field the body lacks
    is [None] (a body with [Response: "False"] carries [Error] and no
    [Search]). *)
Record MovieSearchResponse : Type := mkSearchResponse {
  sr_Search : option (list Movie);
  sr_totalResults : option string;
  sr_Response : option string;
  sr_Error : option string
}.

(** [field === 'False'] *)
Definition is_False (field : option string) : bool :=
  match field with
  | Some r => String.eqb r "False"
  | None => false
  end.

(** [field || fallback] on an optional string. *)
Definition or_else (field : option string) (fallback : string) : string :=
  match field with
  | Some e => if String.eqb e "" then fallback else e
  | None => fallback
  end.

Definition API_KEY : string := "thewdb".
Definition BASE_URL : string := "https://www.omdbapi.com".

Section Service.

(** The body type of the endpoint called. *)
Context {D : Type}.

(** What [await axios.get<D>(url)] gives. *)
Inductive answer : Type :=
| Body (data : option D)
| Failed (e : exn).

Definition Async (A : Type) : Type :=
  (string -> answer) -> list string -> completion A * list string.

Definition aret {A} (a : A) : Async A := fun _ log => (Return a, log).

Definition athrow {A} (e : exn) : Async A := fun _ log => (Throw e, log).

Definition abind {A B} (c : Async A) (k : A -> Async B) : Async B :=
  fun w log =>
    match c w log with
    | (Return a, log') => k a w log'
    | (Throw e, log') => (Throw e, log')
    end.

Definition atry {A} (c : Async A) (handler : exn -> Async A) : Async A :=
  fun w log =>
    match c w log with
    | (Return a, log') => (Return a, log')
    | (Throw e, log') => handler e w log'
    end.

Definition aget (url : string) : Async (option D) :=
  fun w log =>
    match w url with
    | Body data => (Return data, (log ++ [url])%list)
    | Failed e => (Throw e, (log ++ [url])%list)
    end.

End Service.

Arguments answer D : clear implicits.
Arguments Async D A : clear implicits.

Section MovieApiService.

(** The built-in [encodeURIComponent], and the digits a template literal
    prints a page number with. *)
Variable encodeURIComponent : string -> string.
Variable page_digits : number -> string.

(** The [MovieDetails] body; the service reads its [Response] field only. *)
Variable MovieDetails : Type.
Variable md_Response : MovieDetails -> option string.

Definition search_url (searchTerm : string) (page : number) : string :=
  BASE_URL ++ "/?apikey=" ++ API_KEY ++ "&s=" ++ encodeURIComponent searchTerm
    ++ "&page=" ++ page_digits page.

Definition details_url (imdbID : string) : string :=
  BASE_URL ++ "/?apikey=" ++ API_KEY ++ "&i=" ++ imdbID ++ "&plot=full".

(** When the body parsed to [null] ([None]), reading [response.data.Response]
    throws a TypeError, which is not an axios error. *)
Definition searchMovies (searchTerm : string) (page : number)
  : Async MovieSearchResponse MovieSearchResponse :=
  atry
    (abind (aget (search_url searchTerm page)) (fun data =>
       match data with
       | None => athrow Thrown
       | Some d =>
           if is_False (sr_Response d)
           then athrow (Error (or_else (sr_Error d) "Movie not found"))
           else aret d
       end))
    (fun error =>
       if isAxiosError error
       then athrow (Error ("Failed to search movies: " ++ message_or "" error))
       else athrow (Error "Failed to search movies")).

Definition getMovieDetails (imdbID : string)
  : Async MovieDetails MovieDetails :=
  atry
    (abind (aget (details_url imdbID)) (fun data =>
       match data with
       | None => athrow Thrown
       | Some d =>
           if is_False (md_Response d)
           then athrow (Error "Movie details not found")
           else aret d
       end))
    (fun error =>
       if isAxiosError error
       then athrow (Error ("Failed to fetch movie details: "
                             ++ message_or "" error))
       else athrow (Error "Failed to fetch movie details")).

End MovieApiService.

End Movies.

(** * Properties *)

(** ** Numbers *)

Module NumFacts.

Example lit_one : lit 1 0 = one.
Proof. vm_compute. reflexivity. Qed.

Example lit_nine_tenths : lit 9 1 = S754_finite false 8106479329266893 (-53).
Proof. vm_compute. reflexivity. Qed.

Example ten_times_nine_tenths : mul (lit 10 0) (lit 9 1) = lit 9 0.
Proof. vm_compute. reflexivity. Qed.

Example toFixed_ties_up : toFixed (lit 125 3) 2 = Digits false 13 2.
Proof. vm_compute. reflexivity. Qed.

Example toFixed_binary_below : toFixed (lit 1005 3) 2 = Digits false 100 2.
Proof. vm_compute. reflexivity. Qed.

Example toFixed_large :
  toFixed (lit (10 ^ 21) 0) 4 = Shortest (lit (10 ^ 21) 0).
Proof. vm_compute. reflexivity. Qed.

Example toFixed_negative_zero : Number (toFixed (S754_zero true) 4) = zero.
Proof. reflexivity. Qed.

(** Multiplying by [1] changes no number: the product of the mantissas has
    52 trailing zero bits, which the rounding shifts out exactly. *)
Lemma mul_one_r (x : number) : valid x -> mul x one = x.
Proof.
  destruct x as [s | s | | s m e]; intros Hv;
    try reflexivity; try (destruct s; reflexivity).
  unfold valid, valid_binary, bounded, canonical_mantissa in Hv.
  apply andb_prop in Hv. destruct Hv as [Hc Hb].
  apply Z.eqb_eq in Hc.
  change (fexp prec emax (Z.pos (digits2_pos m) + e) = e) in Hc.
  change ((e <=? emax - prec) = true) in Hb.
  unfold mul, one, SFmul.
  rewrite Pos.mul_comm, xorb_false_r.
  unfold binary_round_aux, shr_fexp.
  cbn [Pos.mul Zdigits2 digits2_pos].
  match goal with
  | |- context [fexp _ _ ?a] =>
      replace a with (Z.pos (digits2_pos m) + e)
        by (rewrite !Pos2Z.inj_succ; lia)
  end.
  rewrite Hc.
  match goal with
  | |- context [shr _ _ ?a] => replace a with 52 by lia
  end.
  cbn [shr_record_of_loc shr iter_pos shr_1 shr_m loc_of_shr_record
       round_nearest_even shr_r shr_s orb Zdigits2].
  match goal with
  | |- context [fexp _ _ ?a] =>
      replace a with (Z.pos (digits2_pos m) + e) by lia
  end.
  rewrite Hc.
  match goal with
  | |- context [shr _ _ ?a] => replace a with 0 by lia
  end.
  cbn [shr shr_m].
  match goal with
  | |- context [Z.leb ?a _] => replace a with e by lia
  end.
  rewrite Hb. reflexivity.
Qed.

Lemma nearest_tie_up_bound (num den : Z) :
  0 < den ->
  2 * den * nearest_tie_up num den - den <= 2 * num
  /\ 2 * num < 2 * den * nearest_tie_up num den + den.
Proof.
  intros Hd. unfold nearest_tie_up.
  pose proof (Z.mul_div_le (2 * num + den) (2 * den) ltac:(lia)) as Hlo.
  pose proof (Z.mul_succ_div_gt (2 * num + den) (2 * den) ltac:(lia)) as Hhi.
  lia.
Qed.

Lemma scaled_den_pos (e : Z) : 0 < scaled_den e.
Proof. unfold scaled_den. apply Z.pow_pos_nonneg; lia. Qed.

Lemma scaled_num_split (m : positive) (e f : Z) :
  scaled_num m e f = scaled_num m e 0 * 10 ^ f.
Proof. unfold scaled_num. rewrite Z.pow_0_r. ring. Qed.

(** The digits [toFixed] prints are within half a unit of the last decimal
    place of the number's magnitude. *)
Lemma toFixed_nearest (x : number) (f : Z) (s : bool) (n : Z) :
  0 <= f ->
  toFixed x f = Digits s n f ->
  (Qabs (decimal_Q n f - abs_Q x) <= 1 # Z.to_pos (2 * 10 ^ f))%Q.
Proof.
  intros Hf Hx.
  assert (Hp : 0 < 10 ^ f) by (apply Z.pow_pos_nonneg; lia).
  destruct x as [z | z | | sx m e]; try discriminate.
  - injection Hx as _ Hn. subst n.
    unfold decimal_Q, abs_Q. apply Qabs_Qle_condition.
    split; unfold Qle; cbn; lia.
  - cbn [toFixed] in Hx.
    destruct (10 ^ 21 * scaled_den e <=? scaled_num m e 0); [discriminate|].
    injection Hx as _ Hn.
    pose proof (scaled_den_pos e) as Hd.
    pose proof (nearest_tie_up_bound (scaled_num m e f) (scaled_den e) Hd)
      as [Hlo Hhi].
    rewrite Hn in Hlo, Hhi. rewrite scaled_num_split in Hlo, Hhi.
    unfold decimal_Q, abs_Q. apply Qabs_Qle_condition.
    set (A := scaled_num m e 0) in *. set (D := scaled_den e) in *.
    set (P := 10 ^ f) in *.
    split; unfold Qle; cbn [Qopp Qminus Qplus Qnum Qden];
      rewrite ?Pos2Z.inj_mul, ?Z2Pos.id by lia; nia.
Qed.

(** What [toFixed] prints for a number that is not below zero. *)
Lemma toFixed_nonneg (x : number) (f : Z) :
  leb zero x = true ->
  toFixed x f = Shortest x
  \/ exists n, toFixed x f = Digits false n f.
Proof.
  destruct x as [s | s | | s m e]; intros Hle.
  - right. exists 0. reflexivity.
  - left. reflexivity.
  - left. reflexivity.
  - destruct s; [discriminate|].
    cbn [toFixed].
    destruct (10 ^ 21 * scaled_den e <=? scaled_num m e 0).
    + left. reflexivity.
    + right. eexists. reflexivity.
Qed.

End NumFacts.

(** ** Signs through rounding *)

Module SignFacts.

Lemma shr_1_nonneg (mrs : shr_record) :
  0 <= shr_m mrs -> 0 <= shr_m (shr_1 mrs).
Proof.
  destruct mrs as [m r s]. cbn [shr_m].
  destruct m as [| [p | p |] | p]; cbn; lia.
Qed.

Lemma iter_shr_1_nonneg (p : positive) (mrs : shr_record) :
  0 <= shr_m mrs -> 0 <= shr_m (iter_pos shr_1 p mrs).
Proof.
  revert mrs. induction p as [p IH | p IH |]; intros mrs H; cbn [iter_pos].
  - apply IH, IH, shr_1_nonneg, H.
  - apply IH, IH, H.
  - apply shr_1_nonneg, H.
Qed.

Lemma shr_fexp_nonneg (m e : Z) (l : location) :
  0 <= m -> 0 <= shr_m (fst (shr_fexp prec emax m e l)).
Proof.
  intros Hm. unfold shr_fexp, shr.
  assert (H0 : 0 <= shr_m (shr_record_of_loc m l))
    by (destruct l as [| []]; exact Hm).
  destruct (fexp prec emax (Zdigits2 m + e) - e)%Z as [| p | p];
    cbn [fst]; auto using iter_shr_1_nonneg.
Qed.

Lemma round_nearest_even_nonneg (m : Z) (l : location) :
  0 <= m -> 0 <= round_nearest_even m l.
Proof.
  intros Hm. destruct l as [| []]; cbn [round_nearest_even];
    try destruct (Z.even m); lia.
Qed.

(** Rounding a non-negative mantissa under a positive sign gives a number
    that is not below zero: a zero, a positive number or Infinity. *)
Lemma binary_round_aux_nonneg (m e : Z) (l : location) :
  0 <= m -> leb zero (binary_round_aux prec emax false m e l) = true.
Proof.
  intros Hm. unfold binary_round_aux.
  pose proof (shr_fexp_nonneg m e l Hm) as H1.
  destruct (shr_fexp prec emax m e l) as [mrs1 e1]. cbn [fst] in H1.
  pose proof (shr_fexp_nonneg
                (round_nearest_even (shr_m mrs1) (loc_of_shr_record mrs1))
                e1 loc_Exact
                (round_nearest_even_nonneg _ _ H1)) as H2.
  destruct (shr_fexp prec emax
              (round_nearest_even (shr_m mrs1) (loc_of_shr_record mrs1))
              e1 loc_Exact) as [mrs2 e2].
  cbn [fst] in H2.
  destruct (shr_m mrs2) as [| q | q]; [reflexivity | | lia].
  destruct (e2 <=? emax - prec)%Z; reflexivity.
Qed.

Lemma of_ratio_nonneg (n d : positive) : leb zero (of_ratio false n d) = true.
Proof.
  unfold of_ratio, SFdiv_core_binary.
  set (m' := match _ with Zpos _ => _ | Z0 => _ | Zneg _ => _ end).
  assert (Hm : 0 <= m').
  { subst m'.
    match goal with
    | |- 0 <= match ?s with _ => _ end => destruct s
    end; try lia.
    apply Z.shiftl_nonneg. lia. }
  pose proof (Z.div_pos m' (Zpos d) Hm ltac:(lia)) as Hq.
  unfold Z.div in Hq.
  change (IntDef.Z.div_eucl m' (Z.pos d)) with (Z.div_eucl m' (Z.pos d)).
  destruct (Z.div_eucl m' (Z.pos d)) as [q r].
  apply binary_round_aux_nonneg, Hq.
Qed.

(** Printing with [toFixed] and reading back keeps a number that is not
    below zero that way. *)
Lemma Number_toFixed_nonneg (x : number) (f : Z) :
  leb zero x = true -> leb zero (Number (toFixed x f)) = true.
Proof.
  destruct x as [s | s | | s m e]; intros Hx; try exact Hx.
  destruct s; [discriminate|].
  cbn [toFixed].
  destruct (10 ^ 21 * scaled_den e <=? scaled_num m e 0); [reflexivity|].
  cbn [Number].
  destruct (nearest_tie_up (scaled_num m e f) (scaled_den e));
    try reflexivity.
  apply of_ratio_nonneg.
Qed.

Lemma mul_nonneg (ma mr : positive) (ea er : Z) :
  leb zero (mul (S754_finite false ma ea) (S754_finite false mr er)) = true.
Proof. apply binary_round_aux_nonneg. lia. Qed.

(** [!a || a <= 0] fails exactly when [0 < a]. *)
Lemma amount_guard (a : number) :
  negb (truthy a) || leb a zero = negb (SFltb zero a).
Proof. destruct a as [s | [] | | [] m e]; reflexivity. Qed.

End SignFacts.

(** ** Rounding to nearest *)

Module RoundingFacts.

Import Exact NumFacts SignFacts.

Local Open Scope Q_scope.

Local Open Scope Q_scope.

Lemma pow2_pos (e : Z) : 0 < 2 ^ e.
Proof. apply Qpower_0_lt. reflexivity. Qed.

Lemma pow2_add (a b : Z) : 2 ^ (a + b) == 2 ^ a * 2 ^ b.
Proof. apply Qpower_plus. discriminate. Qed.

Lemma pow2_le (a b : Z) : (a <= b)%Z -> 2 ^ a <= 2 ^ b.
Proof. intros H. apply Qpower_le_compat_l; [exact H | discriminate]. Qed.

Lemma pow2_Z (n : Z) : (0 <= n)%Z -> inject_Z (2 ^ n) == 2 ^ n.
Proof. intros H. rewrite Zpower_Qpower by exact H. reflexivity. Qed.

Lemma located_ext (y y' : Q) (mrs : shr_record) :
  y == y' -> located y mrs -> located y' mrs.
Proof.
  intros E. unfold located.
  destruct (shr_r mrs), (shr_s mrs); rewrite E; auto.
Qed.

Lemma inject_xO (p : positive) : inject_Z (Zpos p~0) == 2 * inject_Z (Zpos p).
Proof. rewrite Pos2Z.inj_xO, inject_Z_mult. reflexivity. Qed.

Lemma inject_xI (p : positive) :
  inject_Z (Zpos p~1) == 2 * inject_Z (Zpos p) + 1.
Proof. rewrite Pos2Z.inj_xI, inject_Z_plus, inject_Z_mult. reflexivity. Qed.

Ltac q_bounds H :=
  match type of H with
  | _ /\ _ => destruct H
  | _ => idtac
  end;
  try split; lra.

Lemma shr_1_located (y : Q) (mrs : shr_record) :
  (0 <= shr_m mrs)%Z -> located y mrs -> located (y * (1 # 2)) (shr_1 mrs).
Proof.
  destruct mrs as [m r s]. cbn [shr_m]. intros Hm.
  destruct m as [| p | p]; [| | lia].
  - destruct r, s; unfold located; cbn [shr_1 shr_m shr_r shr_s orb];
      change (inject_Z 0) with 0; intros H;
      q_bounds H.
  - destruct p as [p | p |]; destruct r, s; unfold located;
      cbn [shr_1 shr_m shr_r shr_s orb];
      change (inject_Z 0) with 0; change (inject_Z 1) with 1; intros H;
      try pose proof (inject_xI p) as HI; try pose proof (inject_xO p) as HO;
      q_bounds H.
Qed.

(** Shifting [p] places divides the position by [2^p]. *)
Lemma iter_shr_1_located (p : positive) (y : Q) (mrs : shr_record) :
  (0 <= shr_m mrs)%Z -> located y mrs ->
  located (y * 2 ^ (Zneg p)) (iter_pos shr_1 p mrs).
Proof.
  revert y mrs.
  induction p as [p IH | p IH |]; intros y mrs Hm H; cbn [iter_pos].
  - apply (located_ext (y * (1 # 2) * 2 ^ (Zneg p) * 2 ^ (Zneg p))).
    + replace (Z.neg p~1) with (-1 + (Z.neg p + Z.neg p))%Z by lia.
      rewrite (pow2_add (-1) (Z.neg p + Z.neg p)).
      rewrite (pow2_add (Z.neg p) (Z.neg p)).
      change (2 ^ (-1)) with (1 # 2). ring.
    + apply IH; [apply iter_shr_1_nonneg, shr_1_nonneg, Hm|].
      apply IH; [apply shr_1_nonneg, Hm|]. apply shr_1_located; assumption.
  - apply (located_ext (y * 2 ^ (Zneg p) * 2 ^ (Zneg p))).
    + replace (Z.neg p~0) with (Z.neg p + Z.neg p)%Z by lia.
      rewrite (pow2_add (Z.neg p) (Z.neg p)). ring.
    + apply IH; [apply iter_shr_1_nonneg, Hm|]. apply IH; assumption.
  - change (2 ^ (-1)) with (1 # 2). apply shr_1_located; assumption.
Qed.

Lemma digits2_pos_bounds (p : positive) :
  (2 ^ (Zpos (digits2_pos p) - 1) <= Zpos p < 2 ^ Zpos (digits2_pos p))%Z.
Proof.
  induction p as [p IH | p IH |]; cbn [digits2_pos].
  - rewrite Pos2Z.inj_succ. change (Z.pos p~1) with (2 * Z.pos p + 1)%Z.
    replace (Z.succ (Z.pos (digits2_pos p)) - 1)%Z
      with (Z.succ (Z.pos (digits2_pos p) - 1))%Z by lia.
    rewrite !Z.pow_succ_r by lia.
    generalize dependent (2 ^ (Z.pos (digits2_pos p) - 1))%Z.
    generalize dependent (2 ^ Z.pos (digits2_pos p))%Z. intros; lia.
  - rewrite Pos2Z.inj_succ. change (Z.pos p~0) with (2 * Z.pos p)%Z.
    replace (Z.succ (Z.pos (digits2_pos p)) - 1)%Z
      with (Z.succ (Z.pos (digits2_pos p) - 1))%Z by lia.
    rewrite !Z.pow_succ_r by lia.
    generalize dependent (2 ^ (Z.pos (digits2_pos p) - 1))%Z.
    generalize dependent (2 ^ Z.pos (digits2_pos p))%Z. intros; lia.
  - cbn. lia.
Qed.

Lemma Zdigits2_nonneg (q : Z) : (0 <= Zdigits2 q)%Z.
Proof. destruct q; cbn; lia. Qed.

Lemma Zdigits2_upper (q : Z) : (0 <= q)%Z -> (q < 2 ^ Zdigits2 q)%Z.
Proof.
  destruct q as [| p | p]; intros H; [cbn; lia | | lia].
  apply digits2_pos_bounds.
Qed.

Lemma Zdigits2_lower (q : Z) : (0 < q)%Z -> (2 ^ (Zdigits2 q - 1) <= q)%Z.
Proof.
  destruct q as [| p | p]; intros H; [lia | | lia].
  apply digits2_pos_bounds.
Qed.

(** A number below [2^n] has at most [n] digits; a number from [2^n] on has
    more. *)
Lemma Zdigits2_le (q n : Z) :
  (0 <= q < 2 ^ n)%Z -> (0 <= n)%Z -> (Zdigits2 q <= n)%Z.
Proof.
  intros [H0 Hq] Hn.
  destruct (Z.eq_dec q 0) as [-> | Hne]; [cbn; lia|].
  pose proof (Zdigits2_lower q ltac:(lia)) as Hl.
  destruct (Z_lt_le_dec n (Zdigits2 q)) as [Hlt | Hle]; [|exact Hle].
  exfalso.
  assert (2 ^ n <= 2 ^ (Zdigits2 q - 1))%Z by (apply Z.pow_le_mono_r; lia).
  lia.
Qed.

Lemma Zdigits2_gt (q n : Z) :
  (2 ^ n <= q)%Z -> (0 <= n)%Z -> (n < Zdigits2 q)%Z.
Proof.
  intros Hq Hn.
  assert (0 < 2 ^ n)%Z by (apply Z.pow_pos_nonneg; lia).
  pose proof (Zdigits2_upper q ltac:(lia)) as Hu.
  destruct (Z_lt_le_dec n (Zdigits2 q)) as [Hlt | Hle]; [exact Hlt|].
  exfalso.
  assert (2 ^ Zdigits2 q <= 2 ^ n)%Z
    by (apply Z.pow_le_mono_r; [lia | exact Hle]).
  lia.
Qed.

Lemma fexp_eq (e : Z) : fexp prec emax e = Z.max (e - 53) (-1074).
Proof. reflexivity. Qed.

(** Rounding to nearest, ties to even, picks one of the two mantissas the
    position lies between, and none is nearer. *)
Lemma round_nearest_even_located (y : Q) (mrs : shr_record) :
  located y mrs ->
  let m := shr_m mrs in
  let m' := round_nearest_even m (loc_of_shr_record mrs) in
  inject_Z m <= y /\ y < inject_Z m + 1
  /\ (m' = m \/ m' = (m + 1)%Z)
  /\ Qabs (inject_Z m' - y) <= y - inject_Z m
  /\ Qabs (inject_Z m' - y) <= inject_Z m + 1 - y.
Proof.
  destruct mrs as [m r s]. unfold located. cbn [shr_m shr_r shr_s].
  assert (Hp : inject_Z (m + 1) == inject_Z m + 1)
    by (rewrite inject_Z_plus; reflexivity).
  destruct r, s; cbn [loc_of_shr_record round_nearest_even]; intros H.
  - destruct H as [H1 H2]. rewrite Hp.
    repeat split; try lra; [right; reflexivity | |];
      apply Qabs_Qle_condition; split; lra.
  - destruct (Z.even m); [|rewrite Hp];
      (repeat split; try lra; [auto | |]);
      apply Qabs_Qle_condition; split; lra.
  - destruct H as [H1 H2].
    repeat split; try lra; [left; reflexivity | |];
      apply Qabs_Qle_condition; split; lra.
  - repeat split; try lra; [left; reflexivity | |];
      apply Qabs_Qle_condition; split; lra.
Qed.

Lemma shr_fexp_eq (q e : Z) (l : location) :
  shr_fexp prec emax q e l
  = shr (shr_record_of_loc q l) e (fexp prec emax (Zdigits2 q + e) - e)%Z.
Proof. reflexivity. Qed.

Lemma binary_round_aux_eq (s : bool) (q e : Z) (l : location) :
  binary_round_aux prec emax s q e l
  = let '(mrs1, e1) := shr_fexp prec emax q e l in
    let '(mrs2, e2) :=
      shr_fexp prec emax
        (round_nearest_even (shr_m mrs1) (loc_of_shr_record mrs1)) e1
        loc_Exact in
    match shr_m mrs2 with
    | Z0 => S754_zero s
    | Zpos m => if (e2 <=? 971)%Z then S754_finite s m e2
                else S754_infinity s
    | Zneg _ => S754_nan
    end.
Proof. reflexivity. Qed.

Lemma located_record (y : Q) (q : Z) (l : location) :
  located y (shr_record_of_loc q l) ->
  inject_Z q <= y /\ y < inject_Z q + 1.
Proof.
  destruct l as [| []]; unfold located; cbn; intros H; q_bounds H.
Qed.

(** The first shift of a rounding brings the exponent to the one the format
    gives the number, and keeps track of where the number lies. *)
Lemma shr_fexp_located (q e : Z) (l : location) (y0 : Q) :
  (0 <= q)%Z ->
  located y0 (shr_record_of_loc q l) ->
  (e <= fexp prec emax (Zdigits2 q + e))%Z ->
  let e1 := fexp prec emax (Zdigits2 q + e) in
  exists mrs1,
    shr_fexp prec emax q e l = (mrs1, e1)
    /\ located (y0 * 2 ^ (e - e1)) mrs1
    /\ (0 <= shr_m mrs1)%Z.
Proof.
  intros Hq Hloc He. cbn zeta. rewrite shr_fexp_eq. unfold shr.
  assert (Hq' : (0 <= shr_m (shr_record_of_loc q l))%Z)
    by (destruct l as [| []]; exact Hq).
  destruct (fexp prec emax (Zdigits2 q + e) - e)%Z as [| p | p] eqn:Hk.
  - exists (shr_record_of_loc q l).
    replace (fexp prec emax (Zdigits2 q + e)) with e by lia.
    split; [reflexivity|]. split; [|exact Hq'].
    apply (located_ext y0); [|exact Hloc].
    replace (e - e)%Z with 0%Z by lia. change (2 ^ 0) with 1. ring.
  - exists (iter_pos shr_1 p (shr_record_of_loc q l)).
    split; [f_equal; lia|]. split; [|apply iter_shr_1_nonneg; exact Hq'].
    replace (e - fexp prec emax (Zdigits2 q + e))%Z with (Z.neg p) by lia.
    apply iter_shr_1_located; assumption.
  - lia.
Qed.

(** After the first shift the mantissa fits the precision, and fills it
    unless the number is subnormal. *)
Lemma first_mantissa_bounds (q e m1 : Z) (y0 : Q) :
  (0 <= q)%Z ->
  inject_Z q <= y0 -> y0 < inject_Z q + 1 ->
  let e1 := fexp prec emax (Zdigits2 q + e) in
  (e <= e1)%Z ->
  inject_Z m1 <= y0 * 2 ^ (e - e1) ->
  y0 * 2 ^ (e - e1) < inject_Z m1 + 1 ->
  (m1 < 2 ^ 53)%Z /\ ((-1074 < e1)%Z -> (2 ^ 52 <= m1)%Z).
Proof.
  intros Hq Hlo Hhi e1 He Hm1 Hm2.
  pose proof (pow2_pos (e - e1)) as HP.
  pose proof (Zdigits2_nonneg q) as Hd.
  assert (He1 : e1 = Z.max (Zdigits2 q + e - 53) (-1074))
    by (subst e1; apply fexp_eq).
  split.
  - rewrite Zlt_Qlt.
    apply Qle_lt_trans with (1 := Hm1).
    apply Qlt_le_trans with ((inject_Z q + 1) * 2 ^ (e - e1)).
    { apply Qmult_lt_compat_r; assumption. }
    apply Qle_trans with (2 ^ Zdigits2 q * 2 ^ (e - e1)).
    { apply Qmult_le_compat_r; [|apply Qlt_le_weak; exact HP].
      rewrite <- pow2_Z by exact Hd.
      change 1 with (inject_Z 1). rewrite <- inject_Z_plus.
      rewrite <- Zle_Qle. pose proof (Zdigits2_upper q Hq). lia. }
    rewrite <- pow2_add, pow2_Z by lia.
    apply pow2_le. lia.
  - intros Hn.
    assert (Hd53 : (53 <= Zdigits2 q)%Z) by lia.
    assert (Hqpos : (0 < q)%Z)
      by (destruct q; [cbn in Hd53; lia | lia | lia]).
    pose proof (Zdigits2_lower q Hqpos) as Hl.
    assert (Hy : 2 ^ 52 <= y0 * 2 ^ (e - e1)).
    { apply Qle_trans with (inject_Z q * 2 ^ (e - e1)).
      - apply Qle_trans with (2 ^ (Zdigits2 q - 1) * 2 ^ (e - e1)).
        + rewrite <- pow2_add. apply pow2_le. lia.
        + apply Qmult_le_compat_r; [|apply Qlt_le_weak; exact HP].
          rewrite <- pow2_Z by lia. rewrite <- Zle_Qle. exact Hl.
      - apply Qmult_le_compat_r; [exact Hlo | apply Qlt_le_weak; exact HP]. }
    assert (Hlt : inject_Z (2 ^ 52) < inject_Z (m1 + 1)).
    { rewrite inject_Z_plus, pow2_Z by lia. change (inject_Z 1) with 1.
      apply Qle_lt_trans with (1 := Hy). exact Hm2. }
    rewrite <- Zlt_Qlt in Hlt. lia.
Qed.

(** The second shift only renormalises a mantissa that rounding carried up to
    [2^53]; the value is kept. *)
Lemma second_shift (s : bool) (m' e1 : Z) :
  (0 <= m' <= 2 ^ 53)%Z -> (-1074 <= e1)%Z ->
  let res :=
    let '(mrs2, e2) := shr_fexp prec emax m' e1 loc_Exact in
    match shr_m mrs2 with
    | Z0 => S754_zero s
    | Zpos m => if (e2 <=? 971)%Z then S754_finite s m e2
                else S754_infinity s
    | Zneg _ => S754_nan
    end in
  (m' = 0%Z /\ res = S754_zero s)
  \/ (exists m'' e'',
        inject_Z (Zpos m'') * 2 ^ e'' == inject_Z m' * 2 ^ e1
        /\ (((e'' <= 971)%Z /\ res = S754_finite s m'' e'')
            \/ ((971 < e'')%Z /\ res = S754_infinity s))).
Proof.
  intros Hm He. cbn zeta. rewrite shr_fexp_eq, fexp_eq.
  destruct (Z.eq_dec m' (2 ^ 53)) as [-> | Hne].
  - change (2 ^ 53)%Z with 9007199254740992%Z.
    change (Zdigits2 9007199254740992) with 54%Z.
    replace (Z.max (54 + e1 - 53) (-1074) - e1)%Z with 1%Z by lia.
    cbn [shr shr_record_of_loc iter_pos shr_1 shr_m orb].
    right. exists 4503599627370496%positive, (e1 + 1)%Z. split.
    + rewrite (pow2_add e1 1). change (2 ^ 1) with 2.
      unfold inject_Z. ring.
    + destruct (Z.leb_spec (e1 + 1) 971); [left | right]; split;
        try reflexivity; lia.
  - assert (Hd : (Zdigits2 m' <= 53)%Z) by (apply Zdigits2_le; lia).
    unfold shr.
    destruct (Z.max (Zdigits2 m' + e1 - 53) (-1074) - e1)%Z
      as [| p | p] eqn:Hk; [| lia |];
      cbn [shr_record_of_loc shr_m];
      (destruct m' as [| p' | p']; [left; split; reflexivity | | lia];
       right; exists p', e1; split; [reflexivity|];
       destruct (Z.leb_spec e1 971); [left | right]; split;
         try reflexivity; lia).
Qed.

(** The value a rounding returns: with the number at position [y0] in units
    of [2^e] next to the mantissa [q], the result is the multiple of the
    format's unit [2^e1] nearest to the number, [m1] being the multiple
    below. *)
Lemma binary_round_aux_located (s : bool) (q e : Z) (l : location) (y0 : Q) :
  (0 <= q)%Z ->
  located y0 (shr_record_of_loc q l) ->
  (e <= fexp prec emax (Zdigits2 q + e))%Z ->
  let e1 := fexp prec emax (Zdigits2 q + e) in
  let y1 := y0 * 2 ^ (e - e1) in
  let res := binary_round_aux prec emax s q e l in
  exists m1 m',
    (0 <= m1)%Z
    /\ inject_Z m1 <= y1 /\ y1 < inject_Z m1 + 1
    /\ (m' = m1 \/ m' = (m1 + 1)%Z)
    /\ Qabs (inject_Z m' - y1) <= y1 - inject_Z m1
    /\ Qabs (inject_Z m' - y1) <= inject_Z m1 + 1 - y1
    /\ ((-1074 < e1)%Z -> (2 ^ 52 <= m1)%Z)
    /\ ((m' = 0%Z /\ res = S754_zero s)
        \/ (exists m'' e'',
              inject_Z (Zpos m'') * 2 ^ e'' == inject_Z m' * 2 ^ e1
              /\ (((e'' <= 971)%Z /\ res = S754_finite s m'' e'')
                  \/ ((971 < e'')%Z /\ res = S754_infinity s)))).
Proof.
  intros Hq Hloc He. cbn zeta.
  destruct (shr_fexp_located q e l y0 Hq Hloc He) as (mrs1 & Hshr & H1 & Hm).
  destruct (located_record y0 q l Hloc) as [Hlo Hhi].
  pose proof (round_nearest_even_located _ _ H1) as Hr. cbn zeta in Hr.
  destruct Hr as (Hy1 & Hy2 & Hcase & Hd1 & Hd2).
  destruct (first_mantissa_bounds q e (shr_m mrs1) y0 Hq Hlo Hhi He Hy1 Hy2)
    as [Hup Hnorm].
  exists (shr_m mrs1),
         (round_nearest_even (shr_m mrs1) (loc_of_shr_record mrs1)).
  repeat (split; [assumption|]).
  rewrite binary_round_aux_eq, Hshr.
  apply second_shift.
  - destruct Hcase as [-> | ->]; lia.
  - rewrite fexp_eq. lia.
Qed.

Lemma abs_Q_finite (s : bool) (m : positive) (e : Z) :
  abs_Q (S754_finite s m e) == inject_Z (Zpos m) * 2 ^ e.
Proof.
  unfold abs_Q, scaled_num, scaled_den.
  change (10 ^ 0)%Z with 1%Z. rewrite Z.mul_1_r.
  destruct e as [| p | p].
  - cbn. unfold Qeq. cbn. lia.
  - rewrite Z.max_l, Z.max_r by lia.
    change (Z.to_pos (2 ^ 0)) with 1%positive.
    rewrite <- pow2_Z by lia. rewrite <- inject_Z_mult.
    reflexivity.
  - rewrite Z.max_r, Z.max_l by lia.
    change (- Z.neg p)%Z with (Z.pos p). rewrite Z.pow_0_r, Z.mul_1_r.
    change (Z.neg p) with (- Z.pos p)%Z. rewrite Qpower_opp.
    rewrite <- pow2_Z by lia.
    assert (Hpos : (0 < 2 ^ Z.pos p)%Z) by (apply Z.pow_pos_nonneg; lia).
    unfold Qeq, Qmult, Qinv, inject_Z. cbn [Qnum Qden].
    destruct (2 ^ Z.pos p)%Z as [| t | t] eqn:Ht; try lia.
    cbn. lia.
Qed.

(** A distance that is at most the distance to both neighbouring multiples
    is at most the distance to anything not strictly between them. *)
Lemma nearer_than_outside (m1 y1 v dist : Q) :
  m1 <= y1 -> y1 < m1 + 1 ->
  dist <= y1 - m1 -> dist <= m1 + 1 - y1 ->
  v <= m1 \/ m1 + 1 <= v ->
  dist <= Qabs (v - y1).
Proof.
  intros H1 H2 Hd1 Hd2 [Hv | Hv].
  - apply Qle_trans with (- (v - y1)); [lra|].
    rewrite <- Qabs_opp. apply Qle_Qabs.
  - apply Qle_trans with (v - y1); [lra | apply Qle_Qabs].
Qed.

(** No valid binary64 number lies strictly between two neighbouring
    multiples of the unit a rounding works in. *)
Lemma valid_outside (y : number) (m1 e1 : Z) :
  valid y -> is_finite y = true ->
  (0 <= m1)%Z -> (-1074 <= e1)%Z ->
  ((-1074 < e1)%Z -> (2 ^ 52 <= m1)%Z) ->
  let v := abs_Q y * 2 ^ (- e1) in
  v <= inject_Z m1 \/ inject_Z m1 + 1 <= v.
Proof.
  intros Hv Hfin Hm1 He1 Hnorm. cbn zeta.
  assert (H0 : 0 <= inject_Z m1)
    by (change 0 with (inject_Z 0); rewrite <- Zle_Qle; exact Hm1).
  destruct y as [sy | sy | | sy my ey]; try discriminate.
  - left. unfold abs_Q. lra.
  - unfold valid, valid_binary, bounded, canonical_mantissa in Hv.
    apply andb_prop in Hv. destruct Hv as [Hc _].
    apply Z.eqb_eq in Hc.
    change (fexp prec emax (Z.pos (digits2_pos my) + ey) = ey) in Hc.
    rewrite fexp_eq in Hc.
    rewrite abs_Q_finite.
    assert (Hv : inject_Z (Z.pos my) * 2 ^ ey * 2 ^ (- e1)
                 == inject_Z (Z.pos my) * 2 ^ (ey - e1)).
    { replace (ey - e1)%Z with (ey + - e1)%Z by lia.
      rewrite (pow2_add ey (- e1)). ring. }
    rewrite Hv.
    destruct (Z_lt_le_dec ey e1) as [Hlt | Hge].
    + left.
      pose proof (digits2_pos_bounds my) as [_ Hup].
      apply Qle_trans with (2 ^ 52).
      * apply Qle_trans with (2 ^ Z.pos (digits2_pos my) * 2 ^ (ey - e1)).
        -- apply Qmult_le_compat_r;
             [|apply Qlt_le_weak, pow2_pos].
           rewrite <- pow2_Z by lia. rewrite <- Zle_Qle. lia.
        -- rewrite <- pow2_add. apply pow2_le. lia.
      * rewrite <- pow2_Z by lia. rewrite <- Zle_Qle. apply Hnorm. lia.
    + assert (Hj : inject_Z (Z.pos my) * 2 ^ (ey - e1)
                   == inject_Z (Z.pos my * 2 ^ (ey - e1))).
      { rewrite inject_Z_mult, pow2_Z by lia. reflexivity. }
      rewrite Hj.
      destruct (Z_le_gt_dec (Z.pos my * 2 ^ (ey - e1)) m1) as [Hle | Hgt].
      * left. rewrite <- Zle_Qle. exact Hle.
      * right. change 1 with (inject_Z 1). rewrite <- inject_Z_plus.
        rewrite <- Zle_Qle. lia.
Qed.

Lemma new_location_eq (nb k : Z) :
  new_location nb k
  = if Z.even nb
    then (if (k =? 0)%Z then loc_Exact else loc_Inexact (2 * k ?= nb)%Z)
    else (if (k =? 0)%Z then loc_Exact
          else loc_Inexact
                 match (2 * k + 1 ?= nb)%Z with
                 | Lt => Lt
                 | Eq => Lt
                 | Gt => Gt
                 end).
Proof. unfold new_location. destruct (Z.even nb); reflexivity. Qed.

(** The location a division reads off its remainder. *)
Lemma new_location_located (d : positive) (q r : Z) :
  (0 <= r < Zpos d)%Z ->
  located (inject_Z q + (r # d))
          (shr_record_of_loc q (new_location (Zpos d) r)).
Proof.
  intros Hr. rewrite new_location_eq.
  assert (H1 : (r # d) < 1) by (unfold Qlt; cbn; lia).
  assert (H0 : 0 <= (r # d)) by (unfold Qle; cbn; lia).
  assert (Hlt : (2 * r < Zpos d)%Z -> (r # d) < (1 # 2))
    by (intros; unfold Qlt; cbn; lia).
  assert (Hgt : (Zpos d < 2 * r)%Z -> (1 # 2) < (r # d))
    by (intros; unfold Qlt; cbn; lia).
  assert (Heq : (2 * r = Zpos d)%Z -> (r # d) == (1 # 2))
    by (intros; unfold Qeq; cbn; lia).
  assert (Hpos : (r <> 0)%Z -> 0 < (r # d))
    by (intros; unfold Qlt; cbn; lia).
  destruct (Z.even (Zpos d)) eqn:Heven;
    (destruct (Z.eqb_spec r 0) as [-> | Hne];
     [unfold located; cbn [shr_record_of_loc shr_m shr_r shr_s];
      assert ((0 # d) == 0) by reflexivity; lra|]).
  - destruct (Z.compare_spec (2 * r) (Zpos d)) as [E | E | E];
      unfold located; cbn [shr_record_of_loc shr_m shr_r shr_s];
      specialize (Hpos Hne);
      [specialize (Heq E) | specialize (Hlt E) | specialize (Hgt E)];
      try split; lra.
  - assert (Hodd : (2 * r <> Zpos d)%Z).
    { intros E. rewrite <- E, Z.even_mul in Heven. discriminate. }
    destruct (Z.compare_spec (2 * r + 1) (Zpos d)) as [E | E | E];
      unfold located; cbn [shr_record_of_loc shr_m shr_r shr_s];
      specialize (Hpos Hne);
      [specialize (Hlt ltac:(lia)) | specialize (Hlt ltac:(lia))
       | specialize (Hgt ltac:(lia))];
      try split; lra.
Qed.

Lemma div_core_eq (n d : positive) :
  SFdiv_core_binary prec emax (Zpos n) 0 (Zpos d) 0
  = let e' := Z.min (fexp prec emax (Zdigits2 (Zpos n) - Zdigits2 (Zpos d))) 0
    in
    let m' := match (- e')%Z with
              | Zpos _ => Z.shiftl (Zpos n) (- e')
              | Z0 => Zpos n
              | Zneg _ => 0%Z
              end in
    let '(q, r) := Z.div_eucl m' (Zpos d) in
    (q, e', new_location (Zpos d) r).
Proof.
  unfold SFdiv_core_binary.
  replace (Zdigits2 (Zpos n) + 0 - (Zdigits2 (Zpos d) + 0))%Z
    with (Zdigits2 (Zpos n) - Zdigits2 (Zpos d))%Z by lia.
  reflexivity.
Qed.

Lemma abs_scale (a P : Q) : 0 < P -> Qabs (a * P) == Qabs a * P.
Proof.
  intros HP. rewrite Qabs_Qmult, (Qabs_pos P) by lra. reflexivity.
Qed.

(** The quotient the division hands to the rounding: it locates [n / d] in
    units of [2^e'], with enough digits for the format. *)
Lemma div_core_located (n d : positive) :
  exists q e' l,
    SFdiv_core_binary prec emax (Zpos n) 0 (Zpos d) 0 = (q, e', l)
    /\ (0 <= q)%Z
    /\ located ((Zpos n # d) * 2 ^ (- e')) (shr_record_of_loc q l)
    /\ (e' <= fexp prec emax (Zdigits2 q + e'))%Z.
Proof.
  rewrite div_core_eq. cbn zeta. rewrite fexp_eq.
  set (d1 := Zdigits2 (Zpos n)). set (d2 := Zdigits2 (Zpos d)).
  set (e' := Z.min (Z.max (d1 - d2 - 53) (-1074)) 0).
  assert (He' : (e' <= 0)%Z) by (subst e'; lia).
  set (m' := match (- e')%Z with
             | Zpos _ => Z.shiftl (Zpos n) (- e')
             | Z0 => Zpos n
             | Zneg _ => 0%Z
             end).
  assert (Hm' : m' = (Zpos n * 2 ^ (- e'))%Z).
  { subst m'. destruct (- e')%Z as [| p | p] eqn:Hs; [| | lia].
    - cbn. lia.
    - rewrite Z.shiftl_mul_pow2 by lia. reflexivity. }
  assert (Hpow : (0 < 2 ^ (- e'))%Z) by (apply Z.pow_pos_nonneg; lia).
  pose proof (Z_div_mod m' (Zpos d) ltac:(lia)) as Hdiv.
  destruct (Z.div_eucl m' (Zpos d)) as [q r]. destruct Hdiv as [Hqr Hr].
  assert (Hq : (0 <= q)%Z) by nia.
  exists q, e', (new_location (Zpos d) r).
  split; [reflexivity|]. split; [exact Hq|]. split.
  - apply (located_ext (inject_Z q + (r # d)));
      [|apply new_location_located; exact Hr].
    rewrite <- pow2_Z by lia.
    unfold Qeq, Qplus, Qmult, inject_Z. cbn [Qnum Qden].
    rewrite !Pos2Z.inj_mul. nia.
  - rewrite fexp_eq.
    assert (Hdq : (d1 - d2 - e' <= Zdigits2 q)%Z); [|lia].
    pose proof (Zdigits2_nonneg q).
    destruct (Z_le_gt_dec (d1 - d2 - e') 0) as [Hle | Hgt]; [lia|].
    assert (Hlow : (d1 - d2 - e' - 1 < Zdigits2 q)%Z); [|lia].
    apply Zdigits2_gt; [|lia].
    pose proof (Zdigits2_lower (Zpos n) ltac:(lia)) as Hn. fold d1 in Hn.
    pose proof (Zdigits2_upper (Zpos d) ltac:(lia)) as Hd. fold d2 in Hd.
    assert (Hd2 : (0 <= d2)%Z) by apply Zdigits2_nonneg.
    assert (Hd1 : (1 <= d1)%Z) by (subst d1; cbn; lia).
    assert (Hsplit : (2 ^ (d1 - 1) * 2 ^ (- e')
                      = 2 ^ (d1 - d2 - e' - 1) * 2 ^ d2)%Z).
    { rewrite <- !Z.pow_add_r by lia. f_equal. lia. }
    assert (Hpos2 : (0 < 2 ^ (d1 - d2 - e' - 1))%Z)
      by (apply Z.pow_pos_nonneg; lia).
    rewrite Hm' in Hqr. clear Hm' m'.
    generalize dependent (2 ^ (d1 - d2 - e' - 1))%Z.
    generalize dependent (2 ^ (d1 - 1))%Z.
    generalize dependent (2 ^ d2)%Z.
    generalize dependent (2 ^ (- e'))%Z.
    intros z Hz Hqr zd Hzd z1 Hz1 z2 Hsplit Hz2.
    destruct (Z_le_gt_dec z2 q) as [Hok | Hbad]; [exact Hok|].
    exfalso.
    assert (Z.pos d * q + r < Z.pos d * z2)%Z by nia.
    assert (Z.pos d * z2 <= zd * z2)%Z by nia.
    assert (z1 * z <= Z.pos n * z)%Z by nia.
    lia.
Qed.

(** Reading a ratio as a number rounds to nearest: the value [cq] the
    rounding arrives at is at least as near to [n / d] as any valid binary64
    number, and it is the value of the result unless that overflows. *)
Theorem of_ratio_nearest (s : bool) (n d : positive) :
  let x := Zpos n # d in
  let c := of_ratio s n d in
  exists cq : Q,
    (forall y, valid y -> is_finite y = true ->
       Qabs (cq - x) <= Qabs (abs_Q y - x))
    /\ ((c = S754_zero s /\ cq == 0)
        \/ (exists m e,
              c = S754_finite s m e /\ cq == inject_Z (Zpos m) * 2 ^ e)
        \/ (c = S754_infinity s /\ 2 ^ 972 <= cq)).
Proof.
  cbn zeta. unfold of_ratio.
  destruct (div_core_located n d) as (q & e' & l & -> & Hq & Hloc & He).
  pose proof (binary_round_aux_located s q e' l _ Hq Hloc He) as H.
  cbn zeta in H.
  set (e1 := fexp prec emax (Zdigits2 q + e')) in *.
  set (x := Zpos n # d) in *.
  set (y1 := x * 2 ^ (- e') * 2 ^ (e' - e1)) in *.
  destruct H as (m1 & mr & Hm1 & Hy1 & Hy2 & Hcase & Hd1 & Hd2 & Hnorm & Hres).
  assert (He1 : (-1074 <= e1)%Z) by (subst e1; rewrite fexp_eq; lia).
  assert (Hx : x == y1 * 2 ^ e1).
  { assert (E : 2 ^ (- e') * 2 ^ (e' - e1) * 2 ^ e1 == 1).
    { rewrite <- (pow2_add (- e') (e' - e1)).
      rewrite <- (pow2_add (- e' + (e' - e1)) e1).
      replace (- e' + (e' - e1) + e1)%Z with 0%Z by lia. reflexivity. }
    subst y1.
    setoid_replace (x * 2 ^ (- e') * 2 ^ (e' - e1) * 2 ^ e1)
      with (x * (2 ^ (- e') * 2 ^ (e' - e1) * 2 ^ e1)) by ring.
    rewrite E. ring. }
  pose proof (pow2_pos e1) as HP.
  exists (inject_Z mr * 2 ^ e1). split.
  - intros y Hv Hfin.
    pose proof (valid_outside y m1 e1 Hv Hfin Hm1 He1 Hnorm) as Hout.
    cbn zeta in Hout.
    pose proof (nearer_than_outside _ _ _ _ Hy1 Hy2 Hd1 Hd2 Hout) as Hnear.
    assert (E1 : inject_Z mr * 2 ^ e1 - x == (inject_Z mr - y1) * 2 ^ e1)
      by (rewrite Hx; ring).
    assert (E2 : abs_Q y - x == (abs_Q y * 2 ^ (- e1) - y1) * 2 ^ e1).
    { rewrite Hx.
      assert (E : 2 ^ (- e1) * 2 ^ e1 == 1).
      { rewrite <- (pow2_add (- e1) e1).
        replace (- e1 + e1)%Z with 0%Z by lia. reflexivity. }
      setoid_replace ((abs_Q y * 2 ^ (- e1) - y1) * 2 ^ e1)
        with (abs_Q y * (2 ^ (- e1) * 2 ^ e1) - y1 * 2 ^ e1) by ring.
      rewrite E. ring. }
    rewrite E1, E2, !abs_scale by exact HP.
    apply Qmult_le_compat_r; [exact Hnear | lra].
  - destruct Hres as [[-> Hz] | (m'' & e'' & Hval & [[Hle Hf] | [Hgt Hi]])].
    + left. split; [exact Hz|]. change (inject_Z 0) with 0. ring.
    + right. left. exists m'', e''. split; [exact Hf|].
      rewrite Hval. reflexivity.
    + right. right. split; [exact Hi|].
      rewrite <- Hval.
      apply Qle_trans with (1 * 2 ^ e'').
      * rewrite Qmult_1_l. apply pow2_le. lia.
      * apply Qmult_le_compat_r; [|apply Qlt_le_weak, pow2_pos].
        change 1 with (inject_Z 1). rewrite <- Zle_Qle. lia.
Qed.

Lemma abs_Q_nonneg (x : number) : 0 <= abs_Q x.
Proof.
  destruct x as [s | s | | s m e]; try (cbn; lra).
  unfold abs_Q, Qle. cbn [Qnum Qden]. unfold scaled_num.
  assert (0 < 2 ^ Z.max e 0)%Z by (apply Z.pow_pos_nonneg; lia).
  nia.
Qed.

Lemma toFixed_digits_small (x : number) (f : Z) (s : bool) (n : Z) :
  toFixed x f = Digits s n f -> abs_Q x < inject_Z (10 ^ 21).
Proof.
  destruct x as [sx | sx | | sx m e]; try discriminate.
  - intros _. reflexivity.
  - cbn [toFixed].
    destruct (Z.leb_spec (10 ^ 21 * scaled_den e) (scaled_num m e 0))
      as [Hle | Hlt]; [discriminate|]. intros _.
    pose proof (scaled_den_pos e) as Hd.
    unfold abs_Q, Qlt, inject_Z. cbn [Qnum Qden].
    rewrite Z2Pos.id by exact Hd. lia.
Qed.

Lemma toFixed_digits_finite (x : number) (f : Z) (s : bool) (n : Z) :
  toFixed x f = Digits s n f -> is_finite x = true.
Proof. destruct x; try discriminate; reflexivity. Qed.

(** Printing a number to [f] decimals and reading the digits back gives a
    finite number of the sign printed, within one unit of the last decimal
    printed of the number. *)
Lemma Number_toFixed_near (x : number) (f : Z) (s : bool) (n : Z) :
  valid x -> (0 <= f)%Z ->
  toFixed x f = Digits s n f ->
  let c := Number (Digits s n f) in
  (c = S754_zero s \/ exists m e, c = S754_finite s m e)
  /\ Qabs (abs_Q c - abs_Q x) <= 1 # Z.to_pos (10 ^ f).
Proof.
  intros Hv Hf Hx. cbn zeta.
  pose proof (toFixed_nearest x f s n Hf Hx) as Hdec.
  pose proof (toFixed_digits_small x f s n Hx) as Hsmall.
  pose proof (toFixed_digits_finite x f s n Hx) as Hfin.
  pose proof (abs_Q_nonneg x) as Hx0.
  assert (Hp : (0 < 10 ^ f)%Z) by (apply Z.pow_pos_nonneg; lia).
  set (h := 1 # Z.to_pos (2 * 10 ^ f)) in *.
  assert (Hh : h + h == 1 # Z.to_pos (10 ^ f)).
  { subst h. unfold Qeq, Qplus. cbn [Qnum Qden].
    rewrite !Pos2Z.inj_mul, !Z2Pos.id by lia. ring. }
  assert (Hh1 : h + h <= 1).
  { rewrite Hh. unfold Qle. cbn [Qnum Qden]. rewrite Z2Pos.id by lia. lia. }
  assert (Hh0 : 0 <= h) by (subst h; unfold Qle; cbn; lia).
  rewrite <- Hh.
  apply Qabs_Qle_condition in Hdec.
  destruct n as [| p | p]; cbn [Number].
  - split; [left; reflexivity|].
    assert (E : decimal_Q 0 f == 0) by reflexivity.
    change (abs_Q (S754_zero s)) with 0.
    apply Qabs_Qle_condition. split; lra.
  - change (decimal_Q (Z.pos p) f) with (Z.pos p # Z.to_pos (10 ^ f)) in Hdec.
    destruct (of_ratio_nearest s p (Z.to_pos (10 ^ f))) as (cq & Hnear & Hres).
    specialize (Hnear x Hv Hfin).
    set (dec := Z.pos p # Z.to_pos (10 ^ f)) in *.
    assert (Hcq : Qabs (cq - dec) <= h).
    { apply Qle_trans with (1 := Hnear).
      apply Qabs_Qle_condition. split; lra. }
    apply Qabs_Qle_condition in Hcq.
    destruct Hres as [[-> Hz] | [(m & e & -> & Hval) | [_ Hbig]]].
    + split; [left; reflexivity|].
      change (abs_Q (S754_zero s)) with 0.
      apply Qabs_Qle_condition. split; lra.
    + split; [right; exists m, e; reflexivity|].
      rewrite abs_Q_finite, <- Hval.
      apply Qabs_Qle_condition. split; lra.
    + exfalso.
      assert (Hc : inject_Z (10 ^ 21) + 1 < 2 ^ 972).
      { apply Qlt_le_trans with (2 ^ 71).
        - unfold Qlt. vm_compute. reflexivity.
        - apply pow2_le. lia. }
      lra.
  - split; [left; reflexivity|].
    assert (E : decimal_Q (Z.neg p) f <= 0)
      by (unfold decimal_Q, Qle; cbn; lia).
    change (abs_Q (S754_zero s)) with 0.
    apply Qabs_Qle_condition. split; lra.
Qed.

(** The same with the signs: the value read back is within one unit of the
    last decimal printed of the value printed. *)
Lemma Number_toFixed_value (s : bool) (m : positive) (e f : Z) (n : Z) :
  valid (S754_finite s m e) -> (0 <= f)%Z ->
  toFixed (S754_finite s m e) f = Digits s n f ->
  Qabs (value_Q (Number (Digits s n f)) - value_Q (S754_finite s m e))
  <= 1 # Z.to_pos (10 ^ f).
Proof.
  intros Hv Hf Hx.
  destruct (Number_toFixed_near _ f s n Hv Hf Hx) as [Hform Hnear].
  cbn zeta in Hform, Hnear.
  destruct s.
  - destruct Hform as [Hc | (m' & e' & Hc)]; rewrite Hc in *;
      cbn [value_Q].
    + change (abs_Q (S754_zero true)) with 0 in *.
      setoid_replace (0 - - abs_Q (S754_finite true m e))
        with (- (0 - abs_Q (S754_finite true m e))) by ring.
      rewrite Qabs_opp. exact Hnear.
    + setoid_replace (- abs_Q (S754_finite true m' e')
                      - - abs_Q (S754_finite true m e))
        with (- (abs_Q (S754_finite true m' e')
                 - abs_Q (S754_finite true m e))) by ring.
      rewrite Qabs_opp. exact Hnear.
  - destruct Hform as [Hc | (m' & e' & Hc)]; rewrite Hc in *;
      cbn [value_Q]; exact Hnear.
Qed.

End RoundingFacts.

(** ** The API service *)

Module ServiceFacts.

Import CurrencyApiService Scenario Exact NumFacts SignFacts RoundingFacts.

(** One run of [getExchangeRates]: one request, and a completion read off the
    transport's answer. *)
Lemma getExchangeRates_run (baseCurrency : string) (w : transport)
  (log : list string) :
  getExchangeRates baseCurrency w log
  = (match w (endpoint baseCurrency) with
     | Response (Some d) =>
         match cd_rates d with
         | Some r => Return (mkExchangeRates r (cd_base d) (cd_date d))
         | None => Throw (Error "Failed to fetch exchange rates")
         end
     | Response None => Throw (Error "Failed to fetch exchange rates")
     | Failure e =>
         if isAxiosError e
         then Throw (Error ("Failed to fetch exchange rates: "
                              ++ message_or "" e))
         else Throw (Error "Failed to fetch exchange rates")
     end,
     (log ++ [endpoint baseCurrency])%list).
Proof.
  unfold getExchangeRates, try_catch, bind, axios_get, ret, throw.
  destruct (w (endpoint baseCurrency)) as [[d |] | e]; cbn.
  - destruct (cd_rates d); reflexivity.
  - reflexivity.
  - destruct (isAxiosError e); reflexivity.
Qed.

Lemma rates_read_own (key : string) (table : Rates) (r : number) :
  rates_get key table = Some r -> rates_read key table = Own r.
Proof. intros H. unfold rates_read. rewrite H. reflexivity. Qed.

(** [Object.keys] lists the names that are array indices first, in
    ascending order, whatever the order of the body; a numeral with a leading
    zero is an ordinary name. *)
Example Object_keys_order :
  Object_keys [("USD", one); ("10", one); ("EUR", one); ("2", one);
               ("02", one)]
  = ["2"; "10"; "USD"; "EUR"; "02"].
Proof. reflexivity. Qed.

(** Reading a name: an own property, a member every object inherits, or
    [undefined]. *)
Example rates_read_kinds :
  rates_read "EUR" usd_table_bits = Own nine_tenths
  /\ rates_read "toString" usd_table_bits = Inherited
  /\ rates_read "XYZ" usd_table_bits = Undefined
  /\ rates_read "toString" [("toString", one)] = Own one.
Proof. repeat split. Qed.

(** [convertCurrency] once the transport has served a table. *)
Lemma convertCurrency_served (fromCurrency toCurrency : string)
  (amount : number) (w : transport) (log : list string) (table : Rates) :
  serves w fromCurrency table ->
  fst (convertCurrency fromCurrency toCurrency amount w log)
  = match rates_read toCurrency table with
    | Own rate =>
        if truthy rate
        then Return (mkConverted (Number (toFixed (mul amount rate) 4))
                                 (Number (toFixed rate 6)))
        else Throw (Error ("Exchange rate not available for " ++ toCurrency))
    | Inherited => Throw (Error toFixed_is_not_a_function)
    | Undefined =>
        Throw (Error ("Exchange rate not available for " ++ toCurrency))
    end.
Proof.
  intros (d & Hw & Hr).
  unfold convertCurrency, bind.
  rewrite getExchangeRates_run, Hw, Hr. cbn [rates].
  destruct (rates_read toCurrency table) as [rate | |]; try reflexivity.
  destruct (truthy rate); reflexivity.
Qed.

(** The scenario's numbers are the binary64 numbers of 10, 9 and 0.9: the
    first two exactly, the third within half a unit in the last place
    ([2^-54]) of nine tenths. *)
Example ten_value : (abs_Q ten == 10)%Q.
Proof. reflexivity. Qed.

Example nine_value : (abs_Q nine == 9)%Q.
Proof. reflexivity. Qed.

Example one_value : (abs_Q one == 1)%Q.
Proof. reflexivity. Qed.

Example nine_tenths_value :
  (Qabs (abs_Q nine_tenths - (9 # 10)) <= 1 # 18014398509481984)%Q.
Proof.
  apply Qabs_Qle_condition. split; unfold Qle; apply Z.leb_le; vm_compute;
    reflexivity.
Qed.

Example nine_tenths_valid : valid nine_tenths /\ valid ten /\ valid nine.
Proof. repeat split. Qed.

(** C1. With the table [{"USD": 1, "EUR": 0.9}] served for base USD,
    converting 10 USD to EUR resolves with [convertedAmount] the binary64
    number 9 and [rate] the binary64 number 0.9. *)
Theorem convert_usd_eur_scenario :
  fst (convertCurrency "USD" "EUR" ten
         (always (Response (Some (body "USD" usd_table_bits)))) [])
  = Return (mkConverted nine nine_tenths).
Proof. vm_compute. reflexivity. Qed.


(** C4. When the served table maps the currency to 1 and the amount is a
    number not below zero, converting from the currency to itself resolves
    with [rate] 1 and with a [convertedAmount] not below zero that is the
    amount rounded to 4 decimals: the digits printed are within 0.00005 of
    the amount and the number read back from them is within 0.0001 of it;
    from [10^21] on, and for Infinity, the amount comes back as it is. *)
Theorem convert_identity (currency : string) (amount : number)
  (w : transport) (log : list string) (table : Rates) :
  serves w currency table ->
  rates_get currency table = Some one ->
  valid amount ->
  leb zero amount = true ->
  exists c,
    fst (convertCurrency currency currency amount w log)
    = Return (mkConverted c one)
    /\ leb zero c = true
    /\ ((toFixed amount 4 = Shortest amount /\ c = amount)
        \/ exists n,
             toFixed amount 4 = Digits false n 4
             /\ (Qabs (decimal_Q n 4 - abs_Q amount) <= 1 # 20000)%Q
             /\ is_finite c = true
             /\ (Qabs (abs_Q c - abs_Q amount) <= 1 # 10000)%Q).
Proof.
  intros Hs Hone Hv Hle.
  exists (Number (toFixed amount 4)). split; [|split].
  - rewrite (convertCurrency_served _ _ _ _ _ _ Hs).
    rewrite (rates_read_own _ _ _ Hone).
    cbn [truthy one]. rewrite (mul_one_r amount Hv). reflexivity.
  - apply Number_toFixed_nonneg. exact Hle.
  - destruct (toFixed_nonneg amount 4 Hle) as [Hbig | [n Hn]].
    + left. split; [exact Hbig|]. rewrite Hbig. reflexivity.
    + right. exists n. split; [exact Hn|].
      split; [apply (toFixed_nearest amount 4 false n); [lia | exact Hn]|].
      rewrite Hn.
      destruct (Number_toFixed_near amount 4 false n Hv ltac:(lia) Hn)
        as [Hform Hnear].
      split; [|exact Hnear].
      destruct Hform as [-> | (m & e & ->)]; reflexivity.
Qed.

Lemma convert_identity_witness :
  exists c,
    fst (convertCurrency "USD" "USD" ten
           (always (Response (Some (body "USD" usd_table_bits)))) [])
    = Return (mkConverted c one)
    /\ leb zero c = true
    /\ ((toFixed ten 4 = Shortest ten /\ c = ten)
        \/ exists n,
             toFixed ten 4 = Digits false n 4
             /\ (Qabs (decimal_Q n 4 - abs_Q ten) <= 1 # 20000)%Q
             /\ is_finite c = true
             /\ (Qabs (abs_Q c - abs_Q ten) <= 1 # 10000)%Q).
Proof.
  apply (convert_identity "USD" ten
           (always (Response (Some (body "USD" usd_table_bits)))) []
           usd_table_bits).
  - exists (body "USD" usd_table_bits). split; reflexivity.
  - reflexivity.
  - reflexivity.
  - reflexivity.
Defined.

Lemma toFixed_finite_cases (s : bool) (m : positive) (e f : Z) :
  toFixed (S754_finite s m e) f = Shortest (S754_finite s m e)
  \/ exists n, toFixed (S754_finite s m e) f = Digits s n f.
Proof.
  cbn [toFixed].
  destruct (10 ^ 21 * scaled_den e <=? scaled_num m e 0).
  - left. reflexivity.
  - right. eexists. reflexivity.
Qed.

(** C5, as the claim states it: a table can hold the target currency and
    the conversion of the amount 0 still fail, or give no 0: with the rate 0
    the guard [!rate] throws, and with the rate Infinity the product
    [0 * Infinity] is [NaN]. *)
Lemma convert_zero_amount_counterexample :
  rates_get "EUR" [("EUR", zero)] = Some zero
  /\ fst (convertCurrency "USD" "EUR" zero
            (always (Response (Some (body "USD" [("EUR", zero)])))) [])
     = Throw (Error "Exchange rate not available for EUR")
  /\ fst (convertCurrency "USD" "EUR" zero
            (always (Response
                       (Some (body "USD" [("EUR", S754_infinity false)]))))
            [])
     = Return (mkConverted S754_nan (S754_infinity false)).
Proof. repeat split. Qed.

(** C5, amended.  When the served table holds a finite non-zero rate for the
    target currency, converting the amount 0 resolves, with [convertedAmount]
    0 and with a finite [rate] that is the table's rate rounded to 6
    decimals, within 0.000001 of it; on the USD table with EUR at 0.9 the
    result is 0 and the binary64 number 0.9. *)
Theorem convert_zero_amount (fromCurrency toCurrency : string)
  (sa : bool) (w : transport) (log : list string) (table : Rates)
  (s : bool) (m : positive) (e : Z) :
  serves w fromCurrency table ->
  rates_get toCurrency table = Some (S754_finite s m e) ->
  valid (S754_finite s m e) ->
  (exists r,
     fst (convertCurrency fromCurrency toCurrency (S754_zero sa) w log)
     = Return (mkConverted zero r)
     /\ is_finite r = true
     /\ (Qabs (value_Q r - value_Q (S754_finite s m e)) <= 1 # 1000000)%Q)
  /\ fst (convertCurrency "USD" "EUR" zero
            (always (Response (Some (body "USD" usd_table_bits)))) [])
     = Return (mkConverted zero nine_tenths).
Proof.
  intros Hs Hrate Hv. split; [|vm_compute; reflexivity].
  exists (Number (toFixed (S754_finite s m e) 6)). split; [|split].
  - rewrite (convertCurrency_served _ _ _ _ _ _ Hs).
    rewrite (rates_read_own _ _ _ Hrate). reflexivity.
  - destruct (toFixed_finite_cases s m e 6) as [-> | [n Hn]];
      [reflexivity|].
    rewrite Hn.
    destruct (Number_toFixed_near _ 6 s n Hv ltac:(lia) Hn)
      as [[-> | (m' & e' & ->)] _]; reflexivity.
  - destruct (toFixed_finite_cases s m e 6) as [-> | [n Hn]].
    + cbn [Number].
      setoid_replace (value_Q (S754_finite s m e)
                      - value_Q (S754_finite s m e))%Q with 0%Q by ring.
      discriminate.
    + rewrite Hn.
      apply (Number_toFixed_value s m e 6 n Hv ltac:(lia) Hn).
Qed.

Lemma convert_zero_amount_witness :
  (exists r,
     fst (convertCurrency "USD" "EUR" (S754_zero false)
            (always (Response (Some (body "USD" usd_table_bits)))) [])
     = Return (mkConverted zero r)
     /\ is_finite r = true
     /\ (Qabs (value_Q r
               - value_Q (S754_finite false 8106479329266893 (-53)))
         <= 1 # 1000000)%Q)
  /\ fst (convertCurrency "USD" "EUR" zero
            (always (Response (Some (body "USD" usd_table_bits)))) [])
     = Return (mkConverted zero nine_tenths).
Proof.
  apply (convert_zero_amount "USD" "EUR" false
           (always (Response (Some (body "USD" usd_table_bits)))) []
           usd_table_bits false 8106479329266893 (-53)).
  - exists (body "USD" usd_table_bits). split; reflexivity.
  - reflexivity.
  - reflexivity.
Defined.

(** C9. When the served table has the target currency as a key but maps it
    to [0], [-0] or [NaN], the conversion throws the error naming the target
    currency, whatever the target: the guard [!rate] takes a falsy rate as
    it takes [undefined].  It is the very completion of the conversion on
    any table that lacks the key, the key being no name that every object
    inherits (for those, with the key absent, the guard is not reached with
    [undefined]). *)
Theorem convert_falsy_rate (fromCurrency toCurrency : string)
  (amount : number) (w : transport) (log : list string) (table : Rates)
  (r : number) :
  serves w fromCurrency table ->
  rates_get toCurrency table = Some r ->
  (r = S754_nan \/ exists s, r = S754_zero s) ->
  fst (convertCurrency fromCurrency toCurrency amount w log)
  = Throw (Error ("Exchange rate not available for " ++ toCurrency))
  /\ forall w' log' table',
       serves w' fromCurrency table' ->
       rates_get toCurrency table' = None ->
       inherited toCurrency = false ->
       fst (convertCurrency fromCurrency toCurrency amount w log)
       = fst (convertCurrency fromCurrency toCurrency amount w' log').
Proof.
  intros Hs Hr Hfalsy.
  assert (Hthrow :
    fst (convertCurrency fromCurrency toCurrency amount w log)
    = Throw (Error ("Exchange rate not available for " ++ toCurrency))).
  { rewrite (convertCurrency_served _ _ _ _ _ _ Hs).
    rewrite (rates_read_own _ _ _ Hr).
    destruct Hfalsy as [-> | [s ->]]; reflexivity. }
  split; [exact Hthrow|].
  intros w' log' table' Hs' Hnone Hi.
  rewrite Hthrow, (convertCurrency_served _ _ _ _ _ _ Hs').
  unfold rates_read. rewrite Hnone, Hi. reflexivity.
Qed.

Lemma convert_falsy_rate_witness :
  fst (convertCurrency "USD" "EUR" ten
         (always (Response (Some (body "USD" [("EUR", zero)])))) [])
  = Throw (Error "Exchange rate not available for EUR")
  /\ forall w' log' table',
       serves w' "USD" table' ->
       rates_get "EUR" table' = None ->
       inherited "EUR" = false ->
       fst (convertCurrency "USD" "EUR" ten
              (always (Response (Some (body "USD" [("EUR", zero)])))) [])
       = fst (convertCurrency "USD" "EUR" ten w' log').
Proof.
  apply (convert_falsy_rate "USD" "EUR" ten
           (always (Response (Some (body "USD" [("EUR", zero)])))) []
           [("EUR", zero)] zero).
  - exists (body "USD" [("EUR", zero)]). split; reflexivity.
  - reflexivity.
  - right. exists false. reflexivity.
Defined.

(** The error thrown for a body without [rates] is caught by the [catch] of
    the same function and thrown again under the generic message. *)
Example invalid_response_format_rewrapped :
  fst (getExchangeRates "USD" (always (Response (Some empty_body))) [])
  = Throw (Error "Failed to fetch exchange rates").
Proof. reflexivity. Qed.

Lemma format_error_not_transport_error (m : string) :
  Error ("Failed to fetch exchange rates: " ++ m)
  <> Error "Failed to fetch exchange rates".
Proof. intros H. injection H as H. discriminate H. Qed.

(** C7, as the claim states it: no way of sorting thrown errors into kinds
    tells the failure on the provider's unsupported-code report from the
    failure on a body that merely lacks [rates]: the two throw one and the
    same error. *)
Lemma fetch_kinds_counterexample :
  ~ (exists is_invalid_currency : exn -> bool,
       (forall e,
          fst (getExchangeRates "XXX"
                 (always (Response (Some unsupported_code_body))) [])
          = Throw e -> is_invalid_currency e = true)
       /\ (forall e,
             fst (getExchangeRates "XXX"
                    (always (Response (Some empty_body))) [])
             = Throw e -> is_invalid_currency e = false)).
Proof.
  intros (k & Hinvalid & Hformat).
  specialize (Hinvalid _ eq_refl). specialize (Hformat _ eq_refl).
  congruence.
Qed.

(** C7, amended.  [getExchangeRates] fails on every response without a
    [rates] field, with one error whatever else the body holds (a report of
    an unrecognised base code is such a body: there is no error of its own
    for it), and that error differs from the error of a transport failure,
    whose message is "Failed to fetch exchange rates: " followed by the
    transport's message. *)
Theorem getExchangeRates_failure_kinds (baseCurrency : string)
  (log : list string) :
  exists format_error : exn,
    (forall w d,
       w (endpoint baseCurrency) = Response (Some d) ->
       cd_rates d = None ->
       fst (getExchangeRates baseCurrency w log) = Throw format_error)
    /\ (forall w m,
          w (endpoint baseCurrency) = Failure (AxiosError m) ->
          fst (getExchangeRates baseCurrency w log)
          = Throw (Error ("Failed to fetch exchange rates: " ++ m))
          /\ Error ("Failed to fetch exchange rates: " ++ m) <> format_error).
Proof.
  exists (Error "Failed to fetch exchange rates"). split.
  - intros w d Hw Hr. rewrite getExchangeRates_run, Hw, Hr. reflexivity.
  - intros w m Hw. split.
    + rewrite getExchangeRates_run, Hw. reflexivity.
    + apply format_error_not_transport_error.
Qed.

(** C8, as the claim states it: a call sends a request, and two calls with
    the same arguments resolve differently when the provider's quote has
    moved in between. *)
Lemma convert_pure_counterexample :
  snd (convertCurrency "USD" "EUR" (lit 10 0) (always usd_response) [])
  = [endpoint "USD"]
  /\ fst (convertCurrency "USD" "EUR" (lit 10 0) (always usd_response) [])
     <> fst (convertCurrency "USD" "EUR" (lit 10 0)
               (always usd_response_later) []).
Proof. split; [reflexivity | vm_compute; discriminate]. Qed.

(** C8, amended.  [convertCurrency] sends exactly one request, for the source
    currency's table, and nothing else; what it completes with is determined
    by its arguments and the transport's answer to that request: two calls
    with the same arguments that get the same answer complete alike. *)
Theorem convert_determined_by_fetch (fromCurrency toCurrency : string)
  (amount : number) (w w' : transport) (log log' : list string) :
  w (endpoint fromCurrency) = w' (endpoint fromCurrency) ->
  fst (convertCurrency fromCurrency toCurrency amount w log)
  = fst (convertCurrency fromCurrency toCurrency amount w' log')
  /\ snd (convertCurrency fromCurrency toCurrency amount w log)
     = (log ++ [endpoint fromCurrency])%list.
Proof.
  intros Hw. unfold convertCurrency, bind.
  rewrite !getExchangeRates_run, <- Hw.
  destruct (w (endpoint fromCurrency)) as [[d |] | e].
  - destruct (cd_rates d) as [r |]; [|split; reflexivity].
    cbn [rates].
    destruct (rates_read toCurrency r) as [rate | |];
      try (split; reflexivity).
    destruct (truthy rate); split; reflexivity.
  - split; reflexivity.
  - destruct (isAxiosError e); split; reflexivity.
Qed.

Lemma convert_determined_by_fetch_witness :
  fst (convertCurrency "USD" "EUR" (lit 10 0) (always usd_response) [])
  = fst (convertCurrency "USD" "EUR" (lit 10 0) (always usd_response)
           [endpoint "GBP"])
  /\ snd (convertCurrency "USD" "EUR" (lit 10 0) (always usd_response) [])
     = ([] ++ [endpoint "USD"])%list.
Proof.
  apply (convert_determined_by_fetch "USD" "EUR" (lit 10 0)
           (always usd_response) (always usd_response) [] [endpoint "GBP"]).
  reflexivity.
Defined.

End ServiceFacts.

(** ** The session *)

Module SessionFacts.

Import CurrencyApiService Session Scenario View.

Example ready_state :
  currencies ready = ["USD"; "EUR"] /\ loading ready = false
  /\ inflight ready = [].
Proof. repeat split. Qed.

Example showing_result_state :
  convertedAmount (conversion showing_result) = Some (lit 9 0)
  /\ rate (conversion showing_result) = Some (lit 9 1)
  /\ loading showing_result = false.
Proof. vm_compute. repeat split. Qed.

(** The setters touch one cell each. *)
Lemma resume_inflight (t : task) (o : outcome) (st : State) :
  inflight (resume t o st) = inflight st.
Proof.
  destruct t as [b | f t a]; cbn [resume].
  - unfold fetchCurrencies_resume.
    destruct (answered (getExchangeRates b) o); reflexivity.
  - unfold handleConvert_resume.
    destruct (answered (convertCurrency f t a) o); reflexivity.
Qed.

Lemma resume_loading (t : task) (o : outcome) (st : State) :
  loading (resume t o st) = false.
Proof. destruct t; reflexivity. Qed.

Lemma single_flight_step (st : State) (ev : event) :
  single_flight st -> enabled st ev = true -> single_flight (step st ev).
Proof.
  intros Hinv Hen.
  destruct ev as [v | v | x | | | id o]; cbn [step enabled] in *.
  - apply andb_prop in Hen. destruct Hen as [Hl _].
    apply negb_true_iff in Hl.
    destruct Hinv as [[Hq _] | (i & t & _ & Hl')]; [|congruence].
    right. exists (issued st), (FetchCurrencies v).
    cbn. rewrite Hq. split; reflexivity.
  - exact Hinv.
  - exact Hinv.
  - apply negb_true_iff in Hen.
    destruct Hinv as [[Hq _] | (i & t & _ & Hl')]; [|congruence].
    right. exists (issued st), (FetchCurrencies (toCurrency (conversion st))).
    cbn. rewrite Hq. split; reflexivity.
  - apply negb_true_iff in Hen.
    destruct Hinv as [[Hq Hl] | (i & t & _ & Hl')]; [|congruence].
    unfold handleConvert.
    destruct (negb (truthy (amount (conversion st)))
              || leb (amount (conversion st)) zero).
    + left. split; assumption.
    + right. eexists _, _. cbn. rewrite Hq. split; reflexivity.
  - destruct Hinv as [[Hq _] | (i & t & Hq & _)].
    + rewrite Hq in Hen. discriminate.
    + rewrite Hq in *. cbn [lookup_task] in *.
      destruct (Nat.eqb id i) eqn:Hid; [|discriminate].
      left. rewrite resume_inflight, resume_loading.
      cbn. rewrite Hq. cbn. rewrite Hid. split; reflexivity.
Qed.

Lemma reachable_once_single_flight (st : State) :
  reachable_once st -> single_flight st.
Proof.
  induction 1 as [| st ev _ IH Hen].
  - right. exists 0%nat, (FetchCurrencies "USD"). split; reflexivity.
  - apply single_flight_step; assumption.
Qed.

(** The second run of the mount effect leaves the page as a change of the
    source currency to USD would. *)
Example mounted_twice_as_step : mounted_twice = step mounted (ChangeFrom "USD").
Proof. reflexivity. Qed.

Lemma reachable_once_reachable (st : State) :
  reachable_once st -> reachable st.
Proof.
  induction 1 as [| st ev _ IH Hen];
    [apply reach_mounted | apply reach_step; assumption].
Qed.

Lemma remove_task_length (id : nat) (l : list (nat * task)) (t : task) :
  lookup_task id l = Some t ->
  S (List.length (remove_task id l)) = List.length l.
Proof.
  induction l as [| [i t'] l IH]; cbn; [discriminate|].
  destruct (Nat.eqb id i); intros H; [reflexivity|].
  cbn. rewrite (IH H). reflexivity.
Qed.

Lemma spawn_while_idle (t : task) (st : State) :
  bounded_overlap st -> loading st = false ->
  bounded_overlap (spawn t (setError "" (setLoading true st))).
Proof.
  intros (H2 & H1 & _) Hl. specialize (H1 Hl).
  unfold bounded_overlap. cbn. rewrite length_app. cbn.
  repeat split; try lia; try discriminate.
  intros _ E. apply app_eq_nil in E. destruct E as [_ E]. discriminate.
Qed.

Lemma bounded_overlap_step (st : State) (ev : event) :
  bounded_overlap st -> enabled st ev = true -> bounded_overlap (step st ev).
Proof.
  intros Hinv Hen.
  destruct ev as [v | v | x | | | id o]; cbn [step enabled] in *.
  - apply andb_prop in Hen. destruct Hen as [Hl _].
    apply negb_true_iff in Hl.
    apply (spawn_while_idle (FetchCurrencies v)
             (setConversion _ st) Hinv Hl).
  - exact Hinv.
  - exact Hinv.
  - apply negb_true_iff in Hen.
    apply (spawn_while_idle (FetchCurrencies (toCurrency (conversion st)))
             (setConversion _ st) Hinv Hen).
  - apply negb_true_iff in Hen. unfold handleConvert.
    destruct (negb (truthy (amount (conversion st)))
              || leb (amount (conversion st)) zero).
    + exact Hinv.
    + apply (spawn_while_idle _ st Hinv Hen).
  - destruct (lookup_task id (inflight st)) as [t |] eqn:Hlook;
      [|discriminate].
    pose proof (remove_task_length id (inflight st) t Hlook) as Hlen.
    destruct Hinv as (H2 & _ & _).
    unfold bounded_overlap.
    rewrite resume_inflight, resume_loading. cbn [settled inflight].
    repeat split; try lia; discriminate.
Qed.

Lemma reachable_bounded_overlap (st : State) :
  reachable st -> bounded_overlap st.
Proof.
  induction 1 as [| | st ev _ IH Hen].
  - unfold bounded_overlap. cbn. repeat split; try lia; discriminate.
  - unfold bounded_overlap. cbn. repeat split; try lia; discriminate.
  - apply bounded_overlap_step; assumption.
Qed.

Lemma request_needs_idle (st : State) (ev : event) :
  issues_request ev = true -> enabled st ev = true -> loading st = false.
Proof.
  destruct ev; try discriminate; cbn [enabled]; intros _ H.
  - apply andb_prop in H. destruct H as [H _].
    apply negb_true_iff in H. exact H.
  - apply negb_true_iff in H. exact H.
  - apply negb_true_iff in H. exact H.
Qed.

(** C3, as the claim states it: the page mounts under [React.StrictMode]
    with two fetches for USD out (requests 0 and 1); request 0 is answered
    and the controls come back; the source currency is changed to EUR
    (request 2) while request 1 is still out; request 2 is answered, with
    the currencies EUR, USD and GBP, then request 1.  Every step is one the
    page lets happen, and the stored list of currencies ends as the one of
    the USD answer to the superseded request 1, without GBP, not as the one
    of the EUR answer. *)
Lemma stale_response_counterexample :
  let trace :=
    [Settle 0 usd_response; ChangeFrom "EUR";
     Settle 2 eur_gbp_response; Settle 1 usd_response] in
  let final := run mounted_twice trace in
  enabled_run mounted_twice trace = true
  /\ reachable final
  /\ fromCurrency (conversion final) = "EUR"
  /\ Object_keys eur_gbp_table = ["EUR"; "USD"; "GBP"]
  /\ currencies final = ["USD"; "EUR"]
  /\ currencies final = Object_keys usd_table
  /\ currencies final <> Object_keys eur_gbp_table.
Proof.
  split; [reflexivity|]. split.
  - repeat (apply reach_step; [|reflexivity]). apply reach_mounted_twice.
  - vm_compute. repeat split. discriminate.
Qed.

(** C3, amended.  The handlers do not tell responses apart: the answer to a
    fetch that arrives with a table replaces the stored list of currencies,
    whichever request was sent last.  What limits overlap is the [loading]
    flag: a control that sends a request is live only while [loading] is
    not set, so in every state the page can be in, in either build, at most
    two requests are in flight and at most one while the controls are live.
    When the mount effect has run once, at most one request is in flight,
    [loading] is set exactly while one is, no control that sends a request
    is live while one is out, and the answer to it leaves nothing in
    flight: there no response arrives after that of a later request. *)
Theorem stale_response_overlap (st : State) :
  reachable st ->
  (forall ev,
     issues_request ev = true -> enabled st ev = true -> loading st = false)
  /\ (forall id baseCurrency o exchangeRates,
        lookup_task id (inflight st) = Some (FetchCurrencies baseCurrency) ->
        answered (getExchangeRates baseCurrency) o = Return exchangeRates ->
        currencies (step st (Settle id o))
        = Object_keys (rates exchangeRates))
  /\ (List.length (inflight st) <= 2)%nat
  /\ (loading st = false -> (List.length (inflight st) <= 1)%nat)
  /\ (reachable_once st ->
      (List.length (inflight st) <= 1)%nat
      /\ (loading st = true <-> inflight st <> [])
      /\ (forall ev,
            inflight st <> [] -> issues_request ev = true ->
            enabled st ev = false)
      /\ (forall id t o,
            lookup_task id (inflight st) = Some t ->
            inflight (step st (Settle id o)) = [])).
Proof.
  intros Hreach.
  destruct (reachable_bounded_overlap st Hreach) as (H2 & H1 & _).
  split; [intros ev; apply request_needs_idle|].
  split.
  { intros id b o ex Hlook Hans. cbn [step]. rewrite Hlook. cbn [resume].
    unfold fetchCurrencies_resume. rewrite Hans. reflexivity. }
  split; [exact H2|]. split; [exact H1|].
  intros Honce.
  pose proof (reachable_once_single_flight st Honce) as Hinv.
  assert (Hload : loading st = true <-> inflight st <> []).
  { destruct Hinv as [[Hq Hl] | (i & t & Hq & Hl)];
      rewrite Hq, Hl; split; congruence. }
  split; [|split; [exact Hload|split]].
  - destruct Hinv as [[Hq _] | (i & t & Hq & _)]; rewrite Hq; cbn; lia.
  - intros ev Hout Hev. apply Hload in Hout.
    destruct ev; try discriminate; cbn [enabled]; rewrite Hout; reflexivity.
  - intros id t o Hlook. cbn [step]. rewrite Hlook, resume_inflight.
    destruct Hinv as [[Hq _] | (i & t' & Hq & _)]; rewrite Hq in *.
    + discriminate.
    + cbn [lookup_task] in Hlook. cbn. rewrite Hq. cbn.
      destruct (Nat.eqb id i); [reflexivity | discriminate].
Qed.

Lemma stale_response_overlap_witness :
  (forall ev,
     issues_request ev = true -> enabled mounted ev = true ->
     loading mounted = false)
  /\ (forall id baseCurrency o exchangeRates,
        lookup_task id (inflight mounted)
        = Some (FetchCurrencies baseCurrency) ->
        answered (getExchangeRates baseCurrency) o = Return exchangeRates ->
        currencies (step mounted (Settle id o))
        = Object_keys (rates exchangeRates))
  /\ (List.length (inflight mounted) <= 2)%nat
  /\ (loading mounted = false ->
      (List.length (inflight mounted) <= 1)%nat)
  /\ (reachable_once mounted ->
      (List.length (inflight mounted) <= 1)%nat
      /\ (loading mounted = true <-> inflight mounted <> [])
      /\ (forall ev,
            inflight mounted <> [] -> issues_request ev = true ->
            enabled mounted ev = false)
      /\ (forall id t o,
            lookup_task id (inflight mounted) = Some t ->
            inflight (step mounted (Settle id o)) = [])).
Proof.
  apply (stale_response_overlap mounted). apply reach_mounted.
Defined.

(** C6, as the claim states it: on the page showing the result of converting
    10 USD to EUR, the swap leaves the computed result in the state. *)
Lemma swap_clears_result_counterexample :
  convertedAmount (conversion showing_result) = Some (lit 9 0)
  /\ convertedAmount (conversion (swapCurrencies showing_result)) <> None
  /\ rate (conversion (swapCurrencies showing_result)) <> None.
Proof. vm_compute. repeat split; discriminate. Qed.

(** C6, amended.  In every state the swap exchanges the source and target
    selections and sends a fresh fetch for the new source currency; the
    amount and the computed result ([convertedAmount] and [rate]) stay as
    they were. *)
Theorem swap_exchanges_and_fetches (st : State) :
  let st' := swapCurrencies st in
  fromCurrency (conversion st') = toCurrency (conversion st)
  /\ toCurrency (conversion st') = fromCurrency (conversion st)
  /\ inflight st'
     = (inflight st
        ++ [(issued st, FetchCurrencies (fromCurrency (conversion st')))])%list
  /\ loading st' = true
  /\ amount (conversion st') = amount (conversion st)
  /\ convertedAmount (conversion st') = convertedAmount (conversion st)
  /\ rate (conversion st') = rate (conversion st).
Proof. cbn. repeat split. Qed.

(** C10. When the amount held is at most 0, the convert handler only sets
    the error message 'Please enter a valid amount': no request is sent, and
    the conversion cell, with its [convertedAmount] and [rate], is left as it
    was. *)
Theorem convert_rejects_nonpositive_amount (st : State) :
  leb (amount (conversion st)) zero = true ->
  let st' := step st ClickConvert in
  st' = setError "Please enter a valid amount" st
  /\ error st' = "Please enter a valid amount"
  /\ inflight st' = inflight st
  /\ issued st' = issued st
  /\ conversion st' = conversion st.
Proof.
  intros Hle. cbn [step]. unfold handleConvert.
  rewrite Hle, orb_true_r. repeat split.
Qed.

Lemma convert_rejects_nonpositive_amount_witness :
  let st := step ready (ChangeAmount zero) in
  let st' := step st ClickConvert in
  st' = setError "Please enter a valid amount" st
  /\ error st' = "Please enter a valid amount"
  /\ inflight st' = inflight st
  /\ issued st' = issued st
  /\ conversion st' = conversion st.
Proof.
  apply (convert_rejects_nonpositive_amount (step ready (ChangeAmount zero))).
  reflexivity.
Defined.

End SessionFacts.


(** ** More on the API service *)

Module ServiceMore.

Import CurrencyApiService Scenario ServiceFacts SignFacts.

(** X1. Whatever makes [getExchangeRates] fail, it has sent its one request
    and does not send another, and the error it throws carries the message
    "Failed to fetch exchange rates", alone or followed by the message of the
    axios error the transport failed with; the message "Invalid response
    format" never leaves the function. *)
Theorem getExchangeRates_thrown (baseCurrency : string) (w : transport)
  (log : list string) (e : exn) :
  fst (getExchangeRates baseCurrency w log) = Throw e ->
  (e = Error "Failed to fetch exchange rates"
   \/ exists m,
        w (endpoint baseCurrency) = Failure (AxiosError m)
        /\ e = Error ("Failed to fetch exchange rates: " ++ m))
  /\ e <> Error "Invalid response format"
  /\ snd (getExchangeRates baseCurrency w log)
     = (log ++ [endpoint baseCurrency])%list.
Proof.
  rewrite getExchangeRates_run. cbn [fst snd]. intros H.
  assert (Hcases :
    e = Error "Failed to fetch exchange rates"
    \/ exists m,
         w (endpoint baseCurrency) = Failure (AxiosError m)
         /\ e = Error ("Failed to fetch exchange rates: " ++ m)).
  { destruct (w (endpoint baseCurrency)) as [[d |] | x].
    - destruct (cd_rates d); [discriminate|]. left. congruence.
    - left. congruence.
    - destruct x as [m | m |]; cbn in H.
      + left. congruence.
      + right. exists m. split; [reflexivity|].
        injection H as <-. reflexivity.
      + left. congruence. }
  split; [exact Hcases|]. split; [|reflexivity].
  destruct Hcases as [-> | (m & _ & ->)]; cbn; discriminate.
Qed.

Lemma getExchangeRates_thrown_witness :
  (Error "Failed to fetch exchange rates: Network Error"
   = Error "Failed to fetch exchange rates"
   \/ exists m,
        always (Failure (AxiosError "Network Error")) (endpoint "USD")
        = Failure (AxiosError m)
        /\ Error "Failed to fetch exchange rates: Network Error"
           = Error ("Failed to fetch exchange rates: " ++ m))
  /\ Error "Failed to fetch exchange rates: Network Error"
     <> Error "Invalid response format"
  /\ snd (getExchangeRates "USD"
            (always (Failure (AxiosError "Network Error"))) [])
     = ([] ++ [endpoint "USD"])%list.
Proof.
  apply (getExchangeRates_thrown "USD"
           (always (Failure (AxiosError "Network Error"))) []
           (Error "Failed to fetch exchange rates: Network Error")).
  reflexivity.
Defined.

(** X2. [getExchangeRates] resolves exactly when the body answered holds a
    truthy [rates], that is a table (an empty one counts): a body without
    the field, or with [null], [0], [false] or the empty string in it, makes
    it throw.  It resolves with that table and with the body's [base] and
    [date] as they came. *)
Theorem getExchangeRates_resolves_iff (baseCurrency : string) (w : transport)
  (log : list string) (ex : ExchangeRates) :
  fst (getExchangeRates baseCurrency w log) = Return ex
  <-> exists d,
        w (endpoint baseCurrency) = Response (Some d)
        /\ cd_rates d = Some (rates ex)
        /\ cd_base d = base ex
        /\ cd_date d = date ex.
Proof.
  rewrite getExchangeRates_run. cbn [fst]. split.
  - intros H.
    destruct (w (endpoint baseCurrency)) as [[d |] | x]; try discriminate.
    + destruct (cd_rates d) as [r |] eqn:Hr; [|discriminate].
      injection H as <-. exists d. cbn. auto.
    + destruct (isAxiosError x); discriminate.
  - intros (d & -> & Hr & Hb & Hd). rewrite Hr, Hb, Hd.
    destruct ex; reflexivity.
Qed.

(** A body whose [rates] is [null] is thrown at like one without the
    field. *)
Example getExchangeRates_null_rates :
  fst (getExchangeRates "USD" (always (Response (Some null_rates_body))) [])
  = Throw (Error "Failed to fetch exchange rates")
  /\ fst (getExchangeRates "USD" (always (Response (Some empty_body))) [])
     = Throw (Error "Failed to fetch exchange rates").
Proof. split; reflexivity. Qed.

(** X3. [convertCurrency] resolves exactly when the transport serves a table
    that maps the target currency to a truthy rate, and then with the product
    printed to 4 decimals and the rate printed to 6, each read back as a
    number. *)
Theorem convertCurrency_resolves_iff (fromCurrency toCurrency : string)
  (amount : number) (w : transport) (log : list string) (r : Converted) :
  fst (convertCurrency fromCurrency toCurrency amount w log) = Return r
  <-> exists table rate,
        serves w fromCurrency table
        /\ rates_get toCurrency table = Some rate
        /\ truthy rate = true
        /\ r = mkConverted (Number (toFixed (mul amount rate) 4))
                           (Number (toFixed rate 6)).
Proof.
  split.
  - unfold convertCurrency, bind. rewrite getExchangeRates_run.
    destruct (w (endpoint fromCurrency)) as [[d |] | x] eqn:Hw;
      try (cbn; discriminate).
    + destruct (cd_rates d) as [table |] eqn:Hr; [|cbn; discriminate].
      cbn [rates]. unfold rates_read.
      destruct (rates_get toCurrency table) as [rate |] eqn:Hg;
        [|destruct (inherited toCurrency); cbn; discriminate].
      destruct (truthy rate) eqn:Ht; cbn; [|discriminate].
      intros H. injection H as <-.
      exists table, rate. repeat split; try assumption.
      exists d. split; assumption.
    + destruct (isAxiosError x); cbn; discriminate.
  - intros (table & rate & Hs & Hg & Ht & ->).
    rewrite (convertCurrency_served _ _ _ _ _ _ Hs),
      (rates_read_own _ _ _ Hg), Ht.
    reflexivity.
Qed.

(** [convertCurrency] after its fetch. *)
Lemma convertCurrency_after_fetch (fromCurrency toCurrency : string)
  (amount : number) (w : transport) (log : list string) :
  fst (convertCurrency fromCurrency toCurrency amount w log)
  = match fst (getExchangeRates fromCurrency w log) with
    | Return ex =>
        match rates_read toCurrency (rates ex) with
        | Own rate =>
            if truthy rate
            then Return (mkConverted (Number (toFixed (mul amount rate) 4))
                                     (Number (toFixed rate 6)))
            else Throw (Error ("Exchange rate not available for "
                               ++ toCurrency))
        | Inherited => Throw (Error toFixed_is_not_a_function)
        | Undefined =>
            Throw (Error ("Exchange rate not available for " ++ toCurrency))
        end
    | Throw e => Throw e
    end.
Proof.
  unfold convertCurrency, bind.
  destruct (getExchangeRates fromCurrency w log) as [[ex | x] log'];
    cbn [fst]; [|reflexivity].
  destruct (rates_read toCurrency (rates ex)) as [rate | |];
    try reflexivity.
  destruct (truthy rate); reflexivity.
Qed.

(** X4. The errors of [convertCurrency], three kinds: it throws what
    [getExchangeRates] threw, unchanged; or, when a table came back in which
    reading the target currency gives [undefined] or a falsy number, the
    error naming the target currency; or, when the table has no entry of
    its own for the target currency and the name is one every object
    inherits, the TypeError of calling [toFixed] on what was read.  It
    throws nothing else. *)
Theorem convertCurrency_thrown_iff (fromCurrency toCurrency : string)
  (amount : number) (w : transport) (log : list string) (e : exn) :
  fst (convertCurrency fromCurrency toCurrency amount w log) = Throw e
  <-> fst (getExchangeRates fromCurrency w log) = Throw e
      \/ exists ex,
           fst (getExchangeRates fromCurrency w log) = Return ex
           /\ (((rates_get toCurrency (rates ex) = None
                 /\ inherited toCurrency = false
                 \/ exists rate,
                      rates_get toCurrency (rates ex) = Some rate
                      /\ truthy rate = false)
                /\ e = Error ("Exchange rate not available for "
                              ++ toCurrency))
               \/ (rates_get toCurrency (rates ex) = None
                   /\ inherited toCurrency = true
                   /\ e = Error "rate.toFixed is not a function")).
Proof.
  rewrite convertCurrency_after_fetch.
  destruct (fst (getExchangeRates fromCurrency w log)) as [ex | x].
  - unfold rates_read.
    destruct (rates_get toCurrency (rates ex)) as [rate |] eqn:Hg;
      [destruct (truthy rate) eqn:Ht
      |destruct (inherited toCurrency) eqn:Hi];
      (split;
       [intros H
       |intros [H | (ex' & Hex & Hc)];
        [discriminate|];
        injection Hex as <-;
        destruct Hc as [[[[Hn Hf] | (r' & Hr' & Hf')] ->] | (Hn & Hf & ->)];
        first [reflexivity | congruence]]).
    + discriminate.
    + right. exists ex. split; [reflexivity|]. left.
      split; [|congruence].
      right. exists rate. split; [exact Hg | exact Ht].
    + right. exists ex. split; [reflexivity|]. right.
      split; [exact Hg|]. split; [reflexivity|].
      unfold toFixed_is_not_a_function in H. congruence.
    + right. exists ex. split; [reflexivity|]. left.
      split; [|congruence]. left. split; [exact Hg | reflexivity].
  - split.
    + intros H. left. congruence.
    + intros [H | (ex' & H & _)]; [congruence | discriminate].
Qed.

(** X5. Converting a positive finite amount at a positive finite rate
    resolves, and neither [convertedAmount] nor [rate] of the result is
    negative or [NaN]. *)
Theorem convert_positive_not_negative (fromCurrency toCurrency : string)
  (w : transport) (log : list string) (table : Rates)
  (ma mr : positive) (ea er : Z) :
  serves w fromCurrency table ->
  rates_get toCurrency table = Some (S754_finite false mr er) ->
  exists r,
    fst (convertCurrency fromCurrency toCurrency (S754_finite false ma ea)
           w log) = Return r
    /\ leb zero (res_convertedAmount r) = true
    /\ leb zero (res_rate r) = true.
Proof.
  intros Hs Hg.
  rewrite (convertCurrency_served _ _ _ _ _ _ Hs), (rates_read_own _ _ _ Hg).
  cbn [truthy].
  eexists. split; [reflexivity|]. cbn [res_convertedAmount res_rate].
  split; apply Number_toFixed_nonneg.
  - apply mul_nonneg.
  - reflexivity.
Qed.

Lemma convert_positive_not_negative_witness :
  exists r,
    fst (convertCurrency "USD" "EUR"
           (S754_finite false 5629499534213120 (-49))
           (always usd_response) []) = Return r
    /\ leb zero (res_convertedAmount r) = true
    /\ leb zero (res_rate r) = true.
Proof.
  apply (convert_positive_not_negative "USD" "EUR" (always usd_response) []
           usd_table 5629499534213120 8106479329266893 (-49) (-53)).
  - exists (body "USD" usd_table). split; reflexivity.
  - vm_compute. reflexivity.
Defined.

(** X20. When the table served has no entry for the target currency and
    the target is not a name that every object inherits, [convertCurrency]
    throws the error that names the target currency, and returns no
    result. *)
Theorem convert_missing_target (fromCurrency toCurrency : string)
  (amount : number) (w : transport) (log : list string) (table : Rates) :
  serves w fromCurrency table ->
  rates_get toCurrency table = None ->
  inherited toCurrency = false ->
  fst (convertCurrency fromCurrency toCurrency amount w log)
  = Throw (Error ("Exchange rate not available for " ++ toCurrency))
  /\ forall r,
       fst (convertCurrency fromCurrency toCurrency amount w log)
       <> Return r.
Proof.
  intros Hs Hg Hi.
  rewrite (convertCurrency_served _ _ _ _ _ _ Hs).
  unfold rates_read. rewrite Hg, Hi. split; [reflexivity | discriminate].
Qed.

Lemma convert_missing_target_witness :
  fst (convertCurrency "USD" "XYZ" ten (always usd_response) [])
  = Throw (Error ("Exchange rate not available for " ++ "XYZ"))
  /\ forall r,
       fst (convertCurrency "USD" "XYZ" ten (always usd_response) [])
       <> Return r.
Proof.
  apply (convert_missing_target "USD" "XYZ" ten (always usd_response) []
           usd_table).
  - exists (body "USD" usd_table). split; reflexivity.
  - reflexivity.
  - reflexivity.
Defined.

End ServiceMore.

(** ** More on the session *)

Module SessionMore.

Import CurrencyApiService Session Scenario View.
Import ServiceFacts SessionFacts SignFacts ServiceMore.

(** No handler writes the amount but [handleAmountChange]. *)
Lemma step_amount (st : State) (ev : event) :
  amount (conversion (step st ev))
  = match ev with
    | ChangeAmount parsed => if truthy parsed then parsed else zero
    | _ => amount (conversion st)
    end.
Proof.
  destruct ev as [v | v | x | | | id o]; cbn [step]; try reflexivity.
  - unfold handleConvert.
    destruct (negb (truthy (amount (conversion st)))
              || leb (amount (conversion st)) zero); reflexivity.
  - destruct (lookup_task id (inflight st)) as [[b | f t a] |];
      [| |reflexivity]; cbn [resume].
    + unfold fetchCurrencies_resume.
      destruct (answered (getExchangeRates b) o); reflexivity.
    + unfold handleConvert_resume.
      destruct (answered (convertCurrency f t a) o); reflexivity.
Qed.

(** A handler leaves both result cells alone or fills both. *)
Lemma step_result (st : State) (ev : event) :
  (convertedAmount (conversion (step st ev)) = convertedAmount (conversion st)
   /\ rate (conversion (step st ev)) = rate (conversion st))
  \/ (exists x y,
        convertedAmount (conversion (step st ev)) = Some x
        /\ rate (conversion (step st ev)) = Some y).
Proof.
  destruct ev as [v | v | x | | | id o]; cbn [step];
    try (left; split; reflexivity).
  - unfold handleConvert.
    destruct (negb (truthy (amount (conversion st)))
              || leb (amount (conversion st)) zero);
      left; split; reflexivity.
  - destruct (lookup_task id (inflight st)) as [[b | f t a] |];
      [| |left; split; reflexivity]; cbn [resume].
    + unfold fetchCurrencies_resume.
      destruct (answered (getExchangeRates b) o); left; split; reflexivity.
    + unfold handleConvert_resume.
      destruct (answered (convertCurrency f t a) o) as [r | e].
      * right. exists (res_convertedAmount r), (res_rate r).
        split; reflexivity.
      * left. split; reflexivity.
Qed.

Lemma run_snoc (st : State) (evs : list event) (ev : event) :
  run st (evs ++ [ev]) = step (run st evs) ev.
Proof. unfold run. rewrite fold_left_app. reflexivity. Qed.

(** Every error [getExchangeRates] throws is an [Error] with a message. *)
Lemma getExchangeRates_throws_Error (baseCurrency : string) (o : outcome)
  (e : exn) :
  answered (getExchangeRates baseCurrency) o = Throw e ->
  exists msg, e = Error msg /\ msg <> "".
Proof.
  unfold answered. rewrite getExchangeRates_run. cbn [fst].
  destruct o as [[d |] | x].
  - destruct (cd_rates d); [discriminate|].
    intros H. injection H as <-. eexists. split; [reflexivity | discriminate].
  - intros H. injection H as <-. eexists. split; [reflexivity | discriminate].
  - destruct (isAxiosError x); intros H; injection H as <-;
      eexists; (split; [reflexivity | cbn; discriminate]).
Qed.

(** And so is every error [convertCurrency] throws. *)
Lemma convertCurrency_throws_Error (from to : string) (a : number)
  (o : outcome) (e : exn) :
  answered (convertCurrency from to a) o = Throw e ->
  exists msg, e = Error msg /\ msg <> "".
Proof.
  unfold answered. rewrite convertCurrency_after_fetch.
  pose proof (getExchangeRates_throws_Error from o) as Hfetch.
  unfold answered in Hfetch.
  destruct (fst (getExchangeRates from (fun _ => o) [])) as [ex | x].
  - destruct (rates_read to (rates ex)) as [r | |];
      [destruct (truthy r); [discriminate|] | |];
      intros H; injection H as <-;
      eexists; (split; [reflexivity | cbn; discriminate]).
  - intros H. injection H as <-. apply Hfetch. reflexivity.
Qed.

Lemma lookup_single (id i : nat) (t t' : task) :
  lookup_task id [(i, t)] = Some t' -> t' = t.
Proof.
  cbn. destruct (Nat.eqb id i); [congruence | discriminate].
Qed.

Lemma flight_matches_step (st : State) (ev : event) :
  single_flight st -> flight_matches st -> enabled st ev = true ->
  flight_matches (step st ev).
Proof.
  intros Hsingle Hflight Hen id t.
  destruct ev as [v | v | x | | | j o]; cbn [step enabled] in *.
  - apply andb_prop in Hen. destruct Hen as [Hl _].
    apply negb_true_iff in Hl.
    destruct Hsingle as [[Hq _] | (i & t' & _ & Hl')]; [|congruence].
    cbn. rewrite Hq. intros H. apply lookup_single in H. subst t.
    reflexivity.
  - apply andb_prop in Hen. destruct Hen as [Hl _].
    apply negb_true_iff in Hl.
    destruct Hsingle as [[Hq _] | (i & t' & _ & Hl')]; [|congruence].
    cbn. rewrite Hq. discriminate.
  - cbn. intros H. specialize (Hflight id t H).
    destruct t as [b | f t a]; exact Hflight.
  - apply negb_true_iff in Hen.
    destruct Hsingle as [[Hq _] | (i & t' & _ & Hl')]; [|congruence].
    cbn. rewrite Hq. intros H. apply lookup_single in H. subst t.
    reflexivity.
  - apply negb_true_iff in Hen.
    destruct Hsingle as [[Hq _] | (i & t' & _ & Hl')]; [|congruence].
    unfold handleConvert.
    destruct (negb (truthy (amount (conversion st)))
              || leb (amount (conversion st)) zero) eqn:Hguard.
    + cbn. rewrite Hq. discriminate.
    + cbn. rewrite Hq. intros H. apply lookup_single in H. subst t.
      apply orb_false_iff in Hguard. destruct Hguard as [Ht Hle].
      apply negb_false_iff in Ht. cbn. auto.
  - destruct Hsingle as [[Hq _] | (i & t' & Hq & _)].
    + rewrite Hq in Hen. discriminate.
    + rewrite Hq in *. cbn [lookup_task] in *.
      destruct (Nat.eqb j i) eqn:Hj; [|discriminate].
      rewrite resume_inflight. cbn. rewrite Hq. cbn. rewrite Hj.
      discriminate.
Qed.

Lemma reachable_once_flight_matches (st : State) :
  reachable_once st -> flight_matches st.
Proof.
  induction 1 as [| st ev Hreach IH Hen].
  - intros id t H. apply lookup_single in H. subst t. reflexivity.
  - apply flight_matches_step;
      [apply reachable_once_single_flight | |]; assumption.
Qed.

Lemma lookup_task_In (id : nat) (l : list (nat * task)) (t : task) :
  lookup_task id l = Some t -> exists i, In (i, t) l.
Proof.
  induction l as [| [i t'] l IH]; cbn; [discriminate|].
  destruct (Nat.eqb id i).
  - intros H. injection H as <-. exists i. left. reflexivity.
  - intros H. destruct (IH H) as [j Hj]. exists j. right. exact Hj.
Qed.

Lemma remove_task_Forall (P : nat * task -> Prop) (id : nat)
  (l : list (nat * task)) :
  Forall P l -> Forall P (remove_task id l).
Proof.
  induction 1 as [| [i t] l Hp Hrest IH]; cbn; [constructor|].
  destruct (Nat.eqb id i); [assumption|]. constructor; assumption.
Qed.

Lemma amounts_pass_spawn (t : task) (st : State) :
  amounts_pass st -> amount_passes t -> amounts_pass (spawn t st).
Proof.
  intros H Ht. unfold amounts_pass. cbn.
  apply Forall_app. split; [exact H|]. constructor; [exact Ht | constructor].
Qed.

(** Every handler keeps the amounts of the conversions in flight past the
    guard. *)
Lemma amounts_pass_step (st : State) (ev : event) :
  amounts_pass st -> amounts_pass (step st ev).
Proof.
  intros H.
  destruct ev as [v | v | x | | | id o]; cbn [step]; try exact H.
  - apply (amounts_pass_spawn (FetchCurrencies v)); [exact H | exact I].
  - apply (amounts_pass_spawn (FetchCurrencies (toCurrency (conversion st))));
      [exact H | exact I].
  - unfold handleConvert.
    destruct (negb (truthy (amount (conversion st)))
              || leb (amount (conversion st)) zero) eqn:Hguard;
      [exact H|].
    apply orb_false_iff in Hguard. destruct Hguard as [Ht Hle].
    apply negb_false_iff in Ht.
    apply amounts_pass_spawn; [exact H | split; assumption].
  - destruct (lookup_task id (inflight st)) as [t |]; [|exact H].
    unfold amounts_pass. rewrite resume_inflight. cbn.
    apply remove_task_Forall. exact H.
Qed.

Lemma reachable_amounts_pass (st : State) :
  reachable st -> amounts_pass st.
Proof.
  induction 1 as [| | st ev _ IH _].
  - repeat constructor.
  - repeat constructor.
  - apply amounts_pass_step. exact IH.
Qed.

(** X6. The convert handler sends a request exactly when [0 < amount]
    (Infinity included): then it clears the error, sets [loading] and
    suspends on a conversion of the current selection and amount; for any
    other amount ([NaN], a zero, a negative number) it only sets the error
    message. *)
Theorem handleConvert_sends_iff_positive (st : State) :
  let c := conversion st in
  (SFltb zero (amount c) = true ->
   step st ClickConvert
   = spawn (Convert (fromCurrency c) (toCurrency c) (amount c))
           (setError "" (setLoading true st)))
  /\ (SFltb zero (amount c) = false ->
      step st ClickConvert = setError "Please enter a valid amount" st)
  /\ (issued (step st ClickConvert) = S (issued st)
      <-> SFltb zero (amount c) = true).
Proof.
  cbn [step]. unfold handleConvert. rewrite amount_guard.
  destruct (SFltb zero (amount (conversion st))); cbn [negb].
  - repeat split; try reflexivity; discriminate.
  - repeat split; try reflexivity; try discriminate.
    cbn. intros H. exfalso. apply (n_Sn (issued st)). exact H.
Qed.

(** X7. Whatever the handlers are called with, in whatever order, the amount
    cell never holds [NaN] or [-0]: it holds [0] or a truthy number. *)
Theorem amount_never_nan (evs : list event) :
  let a := amount (conversion (run mounted evs)) in
  amount_settled (conversion (run mounted evs))
  /\ a <> S754_nan /\ a <> S754_zero true.
Proof.
  cbn zeta.
  assert (H : amount_settled (conversion (run mounted evs))).
  { induction evs as [| ev evs IH] using rev_ind.
    - right. reflexivity.
    - rewrite run_snoc. unfold amount_settled. rewrite step_amount.
      destruct ev as [v | v | x | | | id o]; try exact IH.
      destruct (truthy x) eqn:Hx; [right; exact Hx | left; reflexivity]. }
  split; [exact H|].
  destruct H as [H | H]; rewrite H || (split; intros E; rewrite E in H);
    try discriminate.
  split; discriminate.
Qed.

(** X8. Whatever the handlers are called with, [convertedAmount] and [rate]
    are both set or both unset, so the result panel is rendered exactly when
    [convertedAmount] is set. *)
Theorem result_cells_together (evs : list event) :
  let st := run mounted evs in
  (convertedAmount (conversion st) = None <-> rate (conversion st) = None)
  /\ (result_shown st = true <-> convertedAmount (conversion st) <> None).
Proof.
  cbn zeta.
  assert (H : convertedAmount (conversion (run mounted evs)) = None
              <-> rate (conversion (run mounted evs)) = None).
  { induction evs as [| ev evs IH] using rev_ind.
    - split; reflexivity.
    - rewrite run_snoc.
      destruct (step_result (run mounted evs) ev)
        as [[Hc Hr] | (x & y & Hc & Hr)]; rewrite Hc, Hr.
      + exact IH.
      + split; discriminate. }
  split; [exact H|].
  unfold result_shown.
  destruct (convertedAmount (conversion (run mounted evs))) as [x |];
    destruct (rate (conversion (run mounted evs))) as [y |].
  - split; [discriminate | reflexivity].
  - destruct H as [_ H]. specialize (H eq_refl). discriminate.
  - split; [discriminate | congruence].
  - split; [discriminate | congruence].
Qed.

(** X9. No handler removes a result: once the result panel is rendered it
    stays rendered through every later event, also through a change of
    either currency, of the amount, a swap, and a failed conversion. *)
Theorem result_never_cleared (st : State) (ev : event) :
  result_shown st = true -> result_shown (step st ev) = true.
Proof.
  unfold result_shown. intros H.
  destruct (step_result st ev) as [[Hc Hr] | (x & y & Hc & Hr)];
    rewrite Hc, Hr; [exact H | reflexivity].
Qed.

Lemma result_never_cleared_witness :
  result_shown (step showing_result (ChangeTo "USD")) = true.
Proof.
  apply (result_never_cleared showing_result (ChangeTo "USD")).
  vm_compute. reflexivity.
Defined.

(** X10. Every conversion awaiting the transport, in every state the page
    can be in, in either build, was started with an amount that is truthy
    and not [<= 0].  When the mount effect has run once, the handler
    awaiting the transport was moreover started for what the page still
    shows: a fetch for the current source currency, a conversion for the
    current source and target currencies.  (After the double mount of
    [React.StrictMode] the second mount fetch can be in flight for a source
    currency that is no longer selected.) *)
Theorem inflight_matches_selection (st : State) (id : nat) (t : task) :
  reachable st ->
  lookup_task id (inflight st) = Some t ->
  match t with
  | FetchCurrencies _ => True
  | Convert _ _ a => truthy a = true /\ leb a zero = false
  end
  /\ (reachable_once st ->
      match t with
      | FetchCurrencies baseCurrency =>
          baseCurrency = fromCurrency (conversion st)
      | Convert from to a =>
          from = fromCurrency (conversion st)
          /\ to = toCurrency (conversion st)
          /\ truthy a = true /\ leb a zero = false
      end).
Proof.
  intros Hreach Hlook. split.
  - destruct (lookup_task_In _ _ _ Hlook) as [i Hi].
    pose proof (reachable_amounts_pass st Hreach) as Hall.
    unfold amounts_pass in Hall. rewrite Forall_forall in Hall.
    exact (Hall (i, t) Hi).
  - intros Honce.
    exact (reachable_once_flight_matches st Honce id t Hlook).
Qed.

Lemma inflight_matches_selection_witness :
  let st := run mounted [Settle 0 usd_response; ClickConvert] in
  (truthy one = true /\ leb one zero = false)
  /\ (reachable_once st ->
      "USD" = fromCurrency (conversion st)
      /\ "EUR" = toCurrency (conversion st)
      /\ truthy one = true /\ leb one zero = false).
Proof.
  apply (inflight_matches_selection
           (run mounted [Settle 0 usd_response; ClickConvert]) 1
           (Convert "USD" "EUR" one)).
  - apply reach_step; [apply reach_step; [apply reach_mounted|]|];
      reflexivity.
  - reflexivity.
Defined.

(** After the double mount a fetch can be in flight for a source currency
    that is no longer selected. *)
Example inflight_after_double_mount :
  let st := run mounted_twice [Settle 0 usd_response; ChangeFrom "EUR"] in
  enabled_run mounted_twice [Settle 0 usd_response; ChangeFrom "EUR"] = true
  /\ lookup_task 1 (inflight st) = Some (FetchCurrencies "USD")
  /\ fromCurrency (conversion st) = "EUR".
Proof. vm_compute. repeat split. Qed.

(** X11. When the answer to a fetch makes [getExchangeRates] fail, the page
    keeps the currency list and the conversion cell it had, clears
    [loading], and shows the thrown error's message, which is not empty; the
    fallback text 'Failed to fetch currencies' is never what it shows. *)
Theorem failed_fetch_keeps_list (st : State) (id : nat)
  (baseCurrency : string) (o : outcome) (e : exn) :
  lookup_task id (inflight st) = Some (FetchCurrencies baseCurrency) ->
  answered (getExchangeRates baseCurrency) o = Throw e ->
  let st' := step st (Settle id o) in
  currencies st' = currencies st
  /\ conversion st' = conversion st
  /\ loading st' = false
  /\ e = Error (error st')
  /\ error st' <> ""
  /\ error st' <> "Failed to fetch currencies".
Proof.
  intros Hlook Hans. cbn [step]. rewrite Hlook. cbn [resume].
  unfold fetchCurrencies_resume. rewrite Hans.
  assert (Hmsg : e = Error "Failed to fetch exchange rates"
                 \/ exists m,
                      e = Error ("Failed to fetch exchange rates: " ++ m)).
  { unfold answered in Hans. rewrite getExchangeRates_run in Hans.
    cbn [fst] in Hans.
    destruct o as [[d |] | x].
    - destruct (cd_rates d); [discriminate|]. left. congruence.
    - left. congruence.
    - destruct (isAxiosError x); [right | left].
      + eexists. injection Hans as <-. reflexivity.
      + congruence. }
  cbn. repeat split.
  - destruct Hmsg as [-> | [m ->]]; reflexivity.
  - destruct Hmsg as [-> | [m ->]]; cbn; discriminate.
  - destruct Hmsg as [-> | [m ->]]; cbn; discriminate.
Qed.

Lemma failed_fetch_keeps_list_witness :
  let st' := step mounted (Settle 0 (Failure (AxiosError "Network Error"))) in
  currencies st' = currencies mounted
  /\ conversion st' = conversion mounted
  /\ loading st' = false
  /\ Error "Failed to fetch exchange rates: Network Error" = Error (error st')
  /\ error st' <> ""
  /\ error st' <> "Failed to fetch currencies".
Proof.
  apply (failed_fetch_keeps_list mounted 0 "USD"
           (Failure (AxiosError "Network Error"))
           (Error "Failed to fetch exchange rates: Network Error")).
  - reflexivity.
  - reflexivity.
Defined.

(** X12. When the answer to a conversion makes [convertCurrency] fail, the
    page keeps the conversion cell, with the result of an earlier
    conversion if there was one, and the currency list, clears [loading], and
    shows the thrown error's message, which is not empty. *)
Theorem failed_conversion_keeps_result (st : State) (id : nat)
  (from to : string) (a : number) (o : outcome) (e : exn) :
  lookup_task id (inflight st) = Some (Convert from to a) ->
  answered (convertCurrency from to a) o = Throw e ->
  let st' := step st (Settle id o) in
  conversion st' = conversion st
  /\ currencies st' = currencies st
  /\ loading st' = false
  /\ e = Error (error st')
  /\ error st' <> "".
Proof.
  intros Hlook Hans. cbn [step]. rewrite Hlook. cbn [resume].
  unfold handleConvert_resume. rewrite Hans.
  destruct (convertCurrency_throws_Error from to a o e Hans)
    as (msg & -> & Hmsg).
  cbn. repeat split. exact Hmsg.
Qed.

Lemma failed_conversion_keeps_result_witness :
  let st := run showing_result [ChangeTo "XYZ"; ClickConvert] in
  let st' := step st (Settle 2 usd_response) in
  conversion st' = conversion st
  /\ currencies st' = currencies st
  /\ loading st' = false
  /\ Error "Exchange rate not available for XYZ" = Error (error st')
  /\ error st' <> "".
Proof.
  apply (failed_conversion_keeps_result
           (run showing_result [ChangeTo "XYZ"; ClickConvert]) 2
           "USD" "XYZ" (lit 10 0) usd_response
           (Error "Exchange rate not available for XYZ")).
  - vm_compute. reflexivity.
  - vm_compute. reflexivity.
Defined.

(** X13. A click on convert followed by its answer: with nothing else in
    flight, [0 < amount], and a table answered that maps the target currency
    to a truthy rate, the page ends with the result computed from the amount
    it held at the click, the selections and the amount as they were, no
    error, [loading] cleared, nothing in flight and the currency list
    untouched. *)
Theorem convert_click_then_answer (st : State) (d : CurrencyData)
  (table : Rates) (r : number) :
  inflight st = [] ->
  SFltb zero (amount (conversion st)) = true ->
  cd_rates d = Some table ->
  rates_get (toCurrency (conversion st)) table = Some r ->
  truthy r = true ->
  let c := conversion st in
  let st' := run st [ClickConvert; Settle (issued st) (Response (Some d))] in
  conversion st'
  = mkConversion (fromCurrency c) (toCurrency c) (amount c)
      (Some (Number (toFixed (mul (amount c) r) 4)))
      (Some (Number (toFixed r 6)))
  /\ error st' = ""
  /\ loading st' = false
  /\ inflight st' = []
  /\ currencies st' = currencies st.
Proof.
  intros Hq Hpos Hd Hg Ht. cbn zeta.
  pose proof (amount_guard (amount (conversion st))) as Hguard.
  rewrite Hpos in Hguard. cbn [negb] in Hguard.
  unfold run. cbn [fold_left step].
  unfold handleConvert. rewrite Hguard.
  cbn [spawn setError setLoading inflight issued conversion].
  rewrite Hq. cbn [app lookup_task]. rewrite Nat.eqb_refl.
  cbn [resume]. unfold handleConvert_resume, answered.
  rewrite (convertCurrency_served _ _ _ _ _ table).
  2:{ exists d. split; [reflexivity | exact Hd]. }
  rewrite (rates_read_own _ _ _ Hg), Ht.
  cbn. rewrite ?Hq. cbn. rewrite ?Nat.eqb_refl.
  repeat split.
Qed.

Lemma convert_click_then_answer_witness :
  let st := step ready (ChangeAmount (lit 10 0)) in
  let c := conversion st in
  let st' :=
    run st [ClickConvert; Settle (issued st)
                            (Response (Some (body "USD" usd_table)))] in
  conversion st'
  = mkConversion (fromCurrency c) (toCurrency c) (amount c)
      (Some (Number (toFixed (mul (amount c) (lit 9 1)) 4)))
      (Some (Number (toFixed (lit 9 1) 6)))
  /\ error st' = ""
  /\ loading st' = false
  /\ inflight st' = []
  /\ currencies st' = currencies st.
Proof.
  apply (convert_click_then_answer (step ready (ChangeAmount (lit 10 0)))
           (body "USD" usd_table) usd_table (lit 9 1)).
  - reflexivity.
  - vm_compute. reflexivity.
  - reflexivity.
  - vm_compute. reflexivity.
  - vm_compute. reflexivity.
Defined.

(** X14. Swapping twice brings the conversion cell back to what it was, and
    leaves two more requests in flight: a fetch for the former target
    currency, then one for the former source currency. *)
Theorem swap_twice (st : State) :
  let st' := swapCurrencies (swapCurrencies st) in
  conversion st' = conversion st
  /\ inflight st'
     = (inflight st
        ++ [(issued st, FetchCurrencies (toCurrency (conversion st)));
            (S (issued st), FetchCurrencies (fromCurrency (conversion st)))])%list.
Proof.
  cbn. split.
  - destruct (conversion st); reflexivity.
  - rewrite <- app_assoc. reflexivity.
Qed.

(** X18. [loading] does not stick: in every state the page can be in, in
    either build, with [loading] set a request is in flight, and whatever
    the transport answers a request in flight with, success or failure, the
    answer is taken and clears [loading], so the selects and buttons come
    back; when the mount effect has run once the answer leaves nothing in
    flight. *)
Theorem loading_always_clears (st : State) :
  reachable st ->
  loading st = true ->
  (exists id t, lookup_task id (inflight st) = Some t)
  /\ forall id t o,
       lookup_task id (inflight st) = Some t ->
       enabled st (Settle id o) = true
       /\ loading (step st (Settle id o)) = false
       /\ (reachable_once st -> inflight (step st (Settle id o)) = []).
Proof.
  intros Hreach Hl. split.
  - destruct (reachable_bounded_overlap st Hreach) as (_ & _ & Hout).
    specialize (Hout Hl).
    destruct (inflight st) as [| [i t] rest]; [congruence|].
    exists i, t. cbn. rewrite Nat.eqb_refl. reflexivity.
  - intros id t o Hlook. cbn [enabled step]. rewrite Hlook.
    split; [reflexivity|]. split; [apply resume_loading|].
    intros Honce. rewrite resume_inflight.
    destruct (reachable_once_single_flight st Honce)
      as [[Hq _] | (i & t' & Hq & _)]; rewrite Hq in Hlook.
    + discriminate.
    + cbn [lookup_task] in Hlook. cbn. rewrite Hq. cbn.
      destruct (Nat.eqb id i); [reflexivity | discriminate].
Qed.

Lemma loading_always_clears_witness :
  (exists id t, lookup_task id (inflight mounted) = Some t)
  /\ forall id t o,
       lookup_task id (inflight mounted) = Some t ->
       enabled mounted (Settle id o) = true
       /\ loading (step mounted (Settle id o)) = false
       /\ (reachable_once mounted ->
           inflight (step mounted (Settle id o)) = []).
Proof.
  apply (loading_always_clears mounted).
  - apply reach_mounted.
  - reflexivity.
Defined.

(** X19. A change of the source currency whose fetch fails: with nothing
    else in flight, the page ends with the new source currency selected but
    with the currency list it had before the change, the target currency and
    the result cells untouched, the error's message shown and [loading]
    cleared. *)
Theorem source_change_then_failure (st : State) (value : string)
  (o : outcome) (e : exn) :
  inflight st = [] ->
  answered (getExchangeRates value) o = Throw e ->
  let st' := run st [ChangeFrom value; Settle (issued st) o] in
  fromCurrency (conversion st') = value
  /\ toCurrency (conversion st') = toCurrency (conversion st)
  /\ convertedAmount (conversion st') = convertedAmount (conversion st)
  /\ rate (conversion st') = rate (conversion st)
  /\ currencies st' = currencies st
  /\ e = Error (error st')
  /\ error st' <> ""
  /\ loading st' = false.
Proof.
  intros Hq Hans. cbn zeta.
  destruct (getExchangeRates_throws_Error value o e Hans) as (msg & -> & Hm).
  unfold run. cbn [fold_left step].
  unfold handleFromCurrencyChange, fetchCurrencies.
  cbn [spawn setError setLoading setConversion inflight issued conversion].
  rewrite Hq. cbn [app lookup_task]. rewrite Nat.eqb_refl.
  cbn [resume]. unfold fetchCurrencies_resume. rewrite Hans.
  cbn. repeat split. exact Hm.
Qed.

Lemma source_change_then_failure_witness :
  let st' :=
    run ready [ChangeFrom "EUR";
               Settle (issued ready) (Response (Some empty_body))] in
  fromCurrency (conversion st') = "EUR"
  /\ toCurrency (conversion st') = toCurrency (conversion ready)
  /\ convertedAmount (conversion st') = convertedAmount (conversion ready)
  /\ rate (conversion st') = rate (conversion ready)
  /\ currencies st' = currencies ready
  /\ Error "Failed to fetch exchange rates" = Error (error st')
  /\ error st' <> ""
  /\ loading st' = false.
Proof.
  apply (source_change_then_failure ready "EUR"
           (Response (Some empty_body))
           (Error "Failed to fetch exchange rates")).
  - reflexivity.
  - reflexivity.
Defined.

End SessionMore.

(** ** The movie API service *)

Module MovieFacts.

Import Movies.

Section WithBuiltins.

Variable encodeURIComponent : string -> string.
Variable page_digits : number -> string.
Variable MovieDetails : Type.
Variable md_Response : MovieDetails -> option string.

Lemma searchMovies_run (searchTerm : string) (page : number)
  (w : string -> answer MovieSearchResponse) (log : list string) :
  searchMovies encodeURIComponent page_digits searchTerm page w log
  = (match w (search_url encodeURIComponent page_digits searchTerm page) with
     | Body (Some d) =>
         if is_False (sr_Response d)
         then Throw (Error "Failed to search movies")
         else Return d
     | Body None => Throw (Error "Failed to search movies")
     | Failed e =>
         if isAxiosError e
         then Throw (Error ("Failed to search movies: " ++ message_or "" e))
         else Throw (Error "Failed to search movies")
     end,
     (log ++ [search_url encodeURIComponent page_digits searchTerm page])%list).
Proof.
  unfold searchMovies, atry, abind, aget, aret, athrow.
  destruct (w (search_url encodeURIComponent page_digits searchTerm page))
    as [[d |] | e]; cbn.
  - destruct (is_False (sr_Response d)); reflexivity.
  - reflexivity.
  - destruct (isAxiosError e); reflexivity.
Qed.

Lemma getMovieDetails_run (imdbID : string)
  (w : string -> answer MovieDetails) (log : list string) :
  getMovieDetails MovieDetails md_Response imdbID w log
  = (match w (details_url imdbID) with
     | Body (Some d) =>
         if is_False (md_Response d)
         then Throw (Error "Failed to fetch movie details")
         else Return d
     | Body None => Throw (Error "Failed to fetch movie details")
     | Failed e =>
         if isAxiosError e
         then Throw (Error ("Failed to fetch movie details: "
                              ++ message_or "" e))
         else Throw (Error "Failed to fetch movie details")
     end,
     (log ++ [details_url imdbID])%list).
Proof.
  unfold getMovieDetails, atry, abind, aget, aret, athrow.
  destruct (w (details_url imdbID)) as [[d |] | e]; cbn.
  - destruct (is_False (md_Response d)); reflexivity.
  - reflexivity.
  - destruct (isAxiosError e); reflexivity.
Qed.

(** X15. [searchMovies] resolves exactly when a body came back whose
    [Response] field is not the string "False", and then with that body as
    it is. *)
Theorem searchMovies_resolves_iff (searchTerm : string) (page : number)
  (w : string -> answer MovieSearchResponse) (log : list string)
  (d : MovieSearchResponse) :
  fst (searchMovies encodeURIComponent page_digits searchTerm page w log)
  = Return d
  <-> w (search_url encodeURIComponent page_digits searchTerm page)
      = Body (Some d)
      /\ is_False (sr_Response d) = false.
Proof.
  rewrite searchMovies_run. cbn [fst].
  destruct (w (search_url encodeURIComponent page_digits searchTerm page)) as [[d' |] | e].
  - destruct (is_False (sr_Response d')) eqn:Hf; split.
    + discriminate.
    + intros [H Hd]. injection H as ->. congruence.
    + intros H. injection H as ->. auto.
    + intros [H _]. congruence.
  - split; [discriminate | intros [H _]; discriminate].
  - destruct (isAxiosError e);
      (split; [discriminate | intros [H _]; discriminate]).
Qed.

(** X16. Every error [searchMovies] throws carries the message "Failed to
    search movies", alone or followed by the message of the axios error the
    transport failed with.  When a body came back, so also when the provider
    answered [Response: "False"] with its own [Error] text, the message is
    "Failed to search movies" alone: neither the provider's text nor 'Movie
    not found' reaches the caller. *)
Theorem searchMovies_thrown (searchTerm : string) (page : number)
  (w : string -> answer MovieSearchResponse) (log : list string) (e : exn) :
  fst (searchMovies encodeURIComponent page_digits searchTerm page w log)
  = Throw e ->
  (e = Error "Failed to search movies"
   \/ exists m,
        w (search_url encodeURIComponent page_digits searchTerm page)
        = Failed (AxiosError m)
        /\ e = Error ("Failed to search movies: " ++ m))
  /\ (forall data,
        w (search_url encodeURIComponent page_digits searchTerm page)
        = Body data ->
        e = Error "Failed to search movies").
Proof.
  rewrite searchMovies_run. cbn [fst]. intros H.
  destruct (w (search_url encodeURIComponent page_digits searchTerm page)) as [[d |] | x].
  - destruct (is_False (sr_Response d)); [|discriminate].
    injection H as <-. split; [left; reflexivity | reflexivity].
  - injection H as <-. split; [left; reflexivity | reflexivity].
  - split; [|discriminate].
    destruct x as [m | m |]; cbn in H; injection H as <-.
    + left. reflexivity.
    + right. exists m. split; reflexivity.
    + left. reflexivity.
Qed.

(** X17. [getMovieDetails] resolves exactly when a body came back whose
    [Response] field is not "False", with that body; every error it throws
    carries the message "Failed to fetch movie details", alone or followed
    by the axios error's message, and on a body answered it is that message
    alone: 'Movie details not found' never reaches the caller. *)
Theorem getMovieDetails_outcomes (imdbID : string)
  (w : string -> answer MovieDetails) (log : list string) :
  (forall d,
     fst (getMovieDetails MovieDetails md_Response imdbID w log) = Return d
     <-> w (details_url imdbID) = Body (Some d)
         /\ is_False (md_Response d) = false)
  /\ (forall e,
        fst (getMovieDetails MovieDetails md_Response imdbID w log) = Throw e ->
        (e = Error "Failed to fetch movie details"
         \/ exists m,
              w (details_url imdbID) = Failed (AxiosError m)
              /\ e = Error ("Failed to fetch movie details: " ++ m))
        /\ (forall data,
              w (details_url imdbID) = Body data ->
              e = Error "Failed to fetch movie details")).
Proof.
  rewrite getMovieDetails_run. cbn [fst].
  destruct (w (details_url imdbID)) as [[d' |] | x]; split.
  - intros d. destruct (is_False (md_Response d')) eqn:Hf; split.
    + discriminate.
    + intros [H Hd]. injection H as ->. congruence.
    + intros H. injection H as ->. auto.
    + intros [H _]. congruence.
  - intros e H. destruct (is_False (md_Response d')); [|discriminate].
    injection H as <-. split; [left; reflexivity | reflexivity].
  - intros d. split; [discriminate | intros [H _]; discriminate].
  - intros e H. injection H as <-.
    split; [left; reflexivity | reflexivity].
  - intros d. destruct (isAxiosError x);
      (split; [discriminate | intros [H _]; discriminate]).
  - intros e H. split; [|discriminate].
    destruct x as [m | m |]; cbn in H; injection H as <-.
    + left. reflexivity.
    + right. exists m. split; reflexivity.
    + left. reflexivity.
Qed.

End WithBuiltins.

Lemma searchMovies_thrown_witness :
  let w := fun _ : string =>
             Body (Some (mkSearchResponse None None (Some "False")
                           (Some "Movie not found!"))) in
  (Error "Failed to search movies" = Error "Failed to search movies"
   \/ exists m,
        w (search_url (fun s => s) (fun _ => "1") "zzzz" (lit 1 0))
        = Failed (AxiosError m)
        /\ Error "Failed to search movies"
           = Error ("Failed to search movies: " ++ m))
  /\ (forall data,
        w (search_url (fun s => s) (fun _ => "1") "zzzz" (lit 1 0))
        = Body data ->
        Error "Failed to search movies" = Error "Failed to search movies").
Proof.
  apply (searchMovies_thrown (fun s => s) (fun _ => "1") "zzzz" (lit 1 0)
           (fun _ : string =>
              Body (Some (mkSearchResponse None None (Some "False")
                            (Some "Movie not found!"))))
           []).
  reflexivity.
Defined.

End MovieFacts.
